(** * demosumcall: call-transcript summarisation and topic classification

    A shallow embedding of the three scripts of the repository

    - [summarize.py]  (module [Summarize]): one summary per transcript row,
    - [virgullu.py]   (module [Virgullu]): the single-column variant, whose
      rows are comma separated,
    - [topic.py]      (module [Topic]): three subcategory labels per summary,

    over a small model of the Python values, strings and exceptions they
    use, and of the world they act on (the HTTP endpoint, [time.sleep] and
    [print]). *)

From Stdlib Require Import Ascii String DecimalString.
From Stdlib Require Import List Bool Arith ZArith NArith Lia.
Import ListNotations.

Set Implicit Arguments.
Set Warnings "-register-all".

(** ** Python strings

    A Python [str] is a sequence of Unicode code points. *)

Definition str : Type := list N.

Definition str_eqb (a b : str) : bool :=
  if list_eq_dec N.eq_dec a b then true else false.

(** [lit] reads an ASCII literal; [jlit] reads it with every apostrophe
    standing for a double quote (code point 34), for JSON texts. *)

Definition lit (x : string) : str :=
  map N_of_ascii (list_ascii_of_string x).

Definition jlit (x : string) : str :=
  map (fun c => if N.eqb c 39 then 34%N else c) (lit x).

Definition str_of_nat (n : nat) : str :=
  lit (NilZero.string_of_uint (Nat.to_uint n)).

(** [sep.join(parts)] *)
Fixpoint join (sep : str) (parts : list str) : str :=
  match parts with
  | [] => []
  | [p] => p
  | p :: ps => p ++ sep ++ join sep ps
  end.

(** [str.isspace] on one code point, as [str.strip()] tests it: the ASCII
    separators and the Unicode white space characters. *)
Definition is_space (c : N) : bool :=
  ((9 <=? c) && (c <=? 13) || (28 <=? c) && (c <=? 32)
   || (c =? 133) || (c =? 160) || (c =? 5760)
   || (8192 <=? c) && (c <=? 8202)
   || (c =? 8232) || (c =? 8233) || (c =? 8239) || (c =? 8287)
   || (c =? 12288))%N.

Fixpoint lstrip (s : str) : str :=
  match s with
  | [] => []
  | c :: r => if is_space c then lstrip r else s
  end.

Definition rstrip (s : str) : str := rev (lstrip (rev s)).

(** [s.strip()] *)
Definition strip (s : str) : str := rstrip (lstrip s).

(** [s.split(sep)] for a one-character separator: never an empty list. *)
Fixpoint split (sep : N) (s : str) : list str :=
  match s with
  | [] => [[]]
  | c :: r =>
      if N.eqb c sep then [] :: split sep r
      else match split sep r with
           | p :: ps => (c :: p) :: ps
           | [] => [[c]]
           end
  end.

(** [s.find(c)] for a one-character needle: the first index, or -1. *)
Fixpoint find (c : N) (s : str) : Z :=
  match s with
  | [] => -1
  | x :: r =>
      if N.eqb x c then 0
      else let i := find c r in
           if (i <? 0)%Z then -1 else (i + 1)%Z
  end.

(** [s.rfind(c)]: the last index, or -1. *)
Fixpoint rfind (c : N) (s : str) : Z :=
  match s with
  | [] => -1
  | x :: r =>
      let i := rfind c r in
      if (0 <=? i)%Z then (i + 1)%Z
      else if N.eqb x c then 0 else -1
  end.

(** [s[a:b]] with Python's clamping of the two bounds. *)
Definition clamp_index (len i : Z) : Z :=
  if (i <? 0)%Z then Z.max (i + len) 0 else Z.min i len.

Definition slice {A} (s : list A) (a b : Z) : list A :=
  let len := Z.of_nat (length s) in
  let a' := clamp_index len a in
  let b' := clamp_index len b in
  firstn (Z.to_nat (b' - a')) (skipn (Z.to_nat a') s).

(** ** Python values

    The values a JSON document decodes to.  A [dict] keeps its keys in
    insertion order; a float is kept as the lexeme it was read from (its
    numeric value is never inspected by the scripts). *)

Inductive pyval : Type :=
| PNone
| PBool (b : bool)
| PInt (z : Z)
| PFloat (lexeme : str)
| PStr (s : str)
| PList (l : list pyval)
| PDict (d : list (str * pyval)).

(** [d.get(k)] on an insertion-ordered dictionary. *)
Fixpoint dict_get {V} (d : list (str * V)) (k : str) : option V :=
  match d with
  | [] => None
  | (k', v) :: r => if str_eqb k' k then Some v else dict_get r k
  end.

(** [d[k] = v]: an existing key keeps its place and takes the new value, a
    new key goes last. *)
Fixpoint dict_set {V} (d : list (str * V)) (k : str) (v : V) : list (str * V) :=
  match d with
  | [] => [(k, v)]
  | (k', v') :: r =>
      if str_eqb k' k then (k', v) :: r else (k', v') :: dict_set r k v
  end.

Definition dict_keys {V} (d : list (str * V)) : list str := map fst d.

Definition type_name (v : pyval) : str :=
  match v with
  | PNone => lit "NoneType"
  | PBool _ => lit "bool"
  | PInt _ => lit "int"
  | PFloat _ => lit "float"
  | PStr _ => lit "str"
  | PList _ => lit "list"
  | PDict _ => lit "dict"
  end.

(** ** Exceptions

    [Raised cls msg] is an exception raised inside a library ([requests]),
    with its class name and its [str()]; the others are raised by the
    interpreter on the scripts' own operations, [UnicodeEncodeError text]
    by [print] on a [text] that standard output cannot encode. *)

Inductive exn : Type :=
| Raised (cls msg : str)
| JSONDecodeError (doc : str)
| KeyError (shown : str)
| IndexError (msg : str)
| TypeError (msg : str)
| AttributeError (msg : str)
| UnicodeEncodeError (text : str).

(** What the interpreter and its [json] module decide and the scripts only
    pass on: the [str()] of a value that is not a string (floats and
    containers included), the message of the error [json.loads] raises
    on a malformed document, which characters beyond ASCII the encoding of
    standard output has, and the message of the error raised for a text
    that holds another one. *)

Class Runtime : Type := {
  repr_value : pyval -> str;
  json_error_message : str -> str;
  stdout_encodes : N -> bool;
  encode_error_message : str -> str
}.

Section Rendering.
Context {RT : Runtime}.

(** [str(v)] *)
Definition py_str (v : pyval) : str :=
  match v with
  | PStr s => s
  | _ => repr_value v
  end.

(** [str(e)] *)
Definition str_exn (e : exn) : str :=
  match e with
  | Raised _ msg => msg
  | JSONDecodeError doc => json_error_message doc
  | KeyError shown => shown
  | IndexError msg => msg
  | TypeError msg => msg
  | AttributeError msg => msg
  | UnicodeEncodeError text => encode_error_message text
  end.

(** [f"{last_error}"] when [last_error] may still be [None]. *)
Definition str_opt_exn (e : option exn) : str :=
  match e with
  | Some e => str_exn e
  | None => lit "None"
  end.

(** What standard output can write.  Its encoding is the terminal's or the
    one the interpreter was started with; every such encoding has the ASCII
    characters, and [stdout_encodes] tells which others it has (under
    UTF-8 all but the surrogates, under a code page those of its table,
    all of them when the error handler replaces instead of raising). *)
Definition encodable (c : N) : bool := (c <? 128)%N || stdout_encodes c.

Definition printable (line : str) : bool := forallb encodable line.
End Rendering.

Definition not_subscriptable (v : pyval) : exn :=
  TypeError (lit "'" ++ type_name v ++ lit "' object is not subscriptable").

Definition no_attribute (v : pyval) (name : str) : exn :=
  AttributeError
    (lit "'" ++ type_name v ++ lit "' object has no attribute '" ++ name ++ lit "'").

Definition not_iterable (v : pyval) : exn :=
  TypeError (lit "'" ++ type_name v ++ lit "' object is not iterable").

(** [v[key]] for a string key. *)
Definition getitem_key (v : pyval) (key : str) : exn + pyval :=
  match v with
  | PDict d =>
      match dict_get d key with
      | Some x => inr x
      | None => inl (KeyError (lit "'" ++ key ++ lit "'"))
      end
  | PList _ => inl (TypeError (lit "list indices must be integers or slices, not str"))
  | PStr _ => inl (TypeError (lit "string indices must be integers, not 'str'"))
  | _ => inl (not_subscriptable v)
  end.

(** [v[0]] *)
Definition getitem_0 (v : pyval) : exn + pyval :=
  match v with
  | PList (x :: _) => inr x
  | PList [] => inl (IndexError (lit "list index out of range"))
  | PStr (c :: _) => inr (PStr [c])
  | PStr [] => inl (IndexError (lit "string index out of range"))
  | PDict _ => inl (KeyError (lit "0"))
  | _ => inl (not_subscriptable v)
  end.

(** [v.strip()] *)
Definition method_strip (v : pyval) : exn + pyval :=
  match v with
  | PStr s => inr (PStr (strip s))
  | _ => inl (no_attribute v (lit "strip"))
  end.

(** [iter(v)]: the elements a [for] loop over [v] visits. *)
Definition iterate (v : pyval) : exn + list pyval :=
  match v with
  | PList l => inr l
  | PStr s => inr (map (fun c => PStr [c]) s)
  | PDict d => inr (map PStr (dict_keys d))
  | _ => inl (not_iterable v)
  end.

(** An exception-or-value computation, chained as a [try] body is. *)
Definition bind_exn {A B} (x : exn + A) (f : A -> exn + B) : exn + B :=
  match x with
  | inl e => inl e
  | inr a => f a
  end.

Notation "'try!' x <- c ;; k" := (bind_exn c (fun x => k))
  (at level 61, x pattern, c at next level, right associativity).

(** ** [json.loads]

    The decoder of the standard [json] module, as its scanner reads a
    document: white space is blank, tab, line feed and carriage return; a
    number is an optional minus sign, then 0 or a digit run with no leading
    0, then an optional fraction and an optional exponent; [NaN], [Infinity]
    and [-Infinity] are accepted; a string may hold no control
    character; a repeated key of an object keeps its first place and its
    last value.  Recursion over nested values is by fuel, and the result
    tells running out of it from a malformed document.  The limits of the
    interpreter (its recursion depth, the digits of an integer) are not
    modelled. *)

Inductive scanned (A : Type) : Type :=
| Ok (a : A) (rest : str)
| Malformed
| OutOfFuel.
Arguments Malformed {A}.
Arguments OutOfFuel {A}.

Definition is_json_ws (c : N) : bool :=
  ((c =? 32) || (c =? 9) || (c =? 10) || (c =? 13))%N.

Fixpoint skip_ws (s : str) : str :=
  match s with
  | [] => []
  | c :: r => if is_json_ws c then skip_ws r else s
  end.

Fixpoint strip_prefix (p s : str) : option str :=
  match p, s with
  | [], _ => Some s
  | a :: p', b :: s' => if N.eqb a b then strip_prefix p' s' else None
  | _ :: _, [] => None
  end.

Definition is_digit (c : N) : bool := ((48 <=? c) && (c <=? 57))%N.

(** The longest run of digits at the head, and what follows it. *)
Fixpoint span_digits (s : str) : str * str :=
  match s with
  | [] => ([], [])
  | c :: r =>
      if is_digit c then let (ds, r') := span_digits r in (c :: ds, r')
      else ([], s)
  end.

Definition digits_value (ds : str) : Z :=
  fold_left (fun acc c => (10 * acc + (Z.of_N c - 48))%Z) ds 0%Z.

(** The fraction [.digits] at the head of [s], when there is one. *)
Definition scan_fraction (s : str) : str * str :=
  match s with
  | c :: r =>
      if N.eqb c 46 then
        match span_digits r with
        | ([], _) => ([], s)
        | (ds, r') => (c :: ds, r')
        end
      else ([], s)
  | [] => ([], s)
  end.

(** The exponent [e], an optional sign and digits, when there is one. *)
Definition scan_exponent (s : str) : str * str :=
  match s with
  | c :: r =>
      if (N.eqb c 101 || N.eqb c 69)%bool then
        let (sg, r1) :=
          match r with
          | x :: t => if (N.eqb x 43 || N.eqb x 45)%bool then ([x], t) else ([], r)
          | [] => ([], r)
          end in
        match span_digits r1 with
        | ([], _) => ([], s)
        | (ds, r2) => (c :: sg ++ ds, r2)
        end
      else ([], s)
  | [] => ([], s)
  end.

Definition scan_number (s : str) : option (pyval * str) :=
  let (sign, s1) :=
    match s with
    | c :: r => if N.eqb c 45 then ([c], r) else ([], s)
    | [] => ([], s)
    end in
  match s1 with
  | d :: r =>
      if is_digit d then
        let (int_part, r1) :=
          if N.eqb d 48 then ([d], r)
          else let (ds, r') := span_digits r in (d :: ds, r') in
        let (frac, r2) := scan_fraction r1 in
        let (exp, r3) := scan_exponent r2 in
        match frac, exp with
        | [], [] =>
            let v := digits_value int_part in
            Some (PInt (match sign with [] => v | _ => - v end)%Z, r3)
        | _, _ => Some (PFloat (sign ++ int_part ++ frac ++ exp), r3)
        end
      else None
  | [] => None
  end.

(** The literals, then a number. *)
Definition scan_atom (s : str) : option (pyval * str) :=
  match strip_prefix (lit "null") s with
  | Some r => Some (PNone, r)
  | None =>
  match strip_prefix (lit "true") s with
  | Some r => Some (PBool true, r)
  | None =>
  match strip_prefix (lit "false") s with
  | Some r => Some (PBool false, r)
  | None =>
  match strip_prefix (lit "NaN") s with
  | Some r => Some (PFloat (lit "NaN"), r)
  | None =>
  match strip_prefix (lit "Infinity") s with
  | Some r => Some (PFloat (lit "Infinity"), r)
  | None =>
  match strip_prefix (lit "-Infinity") s with
  | Some r => Some (PFloat (lit "-Infinity"), r)
  | None => scan_number s
  end end end end end end.

Definition hex_digit (c : N) : option N :=
  if ((48 <=? c) && (c <=? 57))%N then Some (c - 48)%N
  else if ((97 <=? c) && (c <=? 102))%N then Some (c - 87)%N
  else if ((65 <=? c) && (c <=? 70))%N then Some (c - 55)%N
  else None.

Definition hex4 (a b c d : N) : option N :=
  match hex_digit a, hex_digit b, hex_digit c, hex_digit d with
  | Some a, Some b, Some c, Some d => Some (((a * 16 + b) * 16 + c) * 16 + d)%N
  | _, _, _, _ => None
  end.

Definition simple_escape (c : N) : option N :=
  if (N.eqb c 34 || N.eqb c 92 || N.eqb c 47)%bool then Some c
  else if N.eqb c 98 then Some 8%N
  else if N.eqb c 102 then Some 12%N
  else if N.eqb c 110 then Some 10%N
  else if N.eqb c 114 then Some 13%N
  else if N.eqb c 116 then Some 9%N
  else None.

Definition is_high_surrogate (c : N) : bool := ((55296 <=? c) && (c <=? 56319))%N.
Definition is_low_surrogate (c : N) : bool := ((56320 <=? c) && (c <=? 57343))%N.
Definition join_surrogates (hi lo : N) : N :=
  (65536 + ((hi - 55296) * 1024 + (lo - 56320)))%N.

(** The body of a string, after its opening quote, up to and including
    the closing one; [acc] holds the decoded characters, last first. *)
Fixpoint scanstring (s : str) (acc : str) {struct s} : option (str * str) :=
  match s with
  | [] => None
  | c :: r =>
      if N.eqb c 34 then Some (rev acc, r)
      else if (c <? 32)%N then None
      else if N.eqb c 92 then
        match r with
        | [] => None
        | e :: r1 =>
            if N.eqb e 117 then
              match r1 with
              | h1 :: h2 :: h3 :: h4 :: r2 =>
                  match hex4 h1 h2 h3 h4 with
                  | None => None
                  | Some u =>
                      match r2 with
                      | b :: x :: l1 :: l2 :: l3 :: l4 :: r3 =>
                          if (is_high_surrogate u && N.eqb b 92 && N.eqb x 117)%bool then
                            match hex4 l1 l2 l3 l4 with
                            | None => None
                            | Some u2 =>
                                if is_low_surrogate u2
                                then scanstring r3 (join_surrogates u u2 :: acc)
                                else scanstring r2 (u :: acc)
                            end
                          else scanstring r2 (u :: acc)
                      | _ => scanstring r2 (u :: acc)
                      end
                  end
              | _ => None
              end
            else
              match simple_escape e with
              | Some x => scanstring r1 (x :: acc)
              | None => None
              end
        end
      else scanstring r (c :: acc)
  end.

Fixpoint scan_once (fuel : nat) (s : str) {struct fuel} : scanned pyval :=
  match fuel with
  | O => OutOfFuel
  | S fuel' =>
      match s with
      | [] => Malformed
      | c :: r =>
          if N.eqb c 34 then
            match scanstring r [] with
            | Some (x, r') => Ok (PStr x) r'
            | None => Malformed
            end
          else if N.eqb c 123 then
            match skip_ws r with
            | c' :: r' =>
                if N.eqb c' 125 then Ok (PDict []) r'
                else parse_members fuel' (c' :: r') []
            | [] => Malformed
            end
          else if N.eqb c 91 then
            match skip_ws r with
            | c' :: r' =>
                if N.eqb c' 93 then Ok (PList []) r'
                else parse_elements fuel' (c' :: r') []
            | [] => Malformed
            end
          else
            match scan_atom s with
            | Some (v, r') => Ok v r'
            | None => Malformed
            end
      end
  end

with parse_elements (fuel : nat) (s : str) (acc : list pyval) {struct fuel}
  : scanned pyval :=
  match fuel with
  | O => OutOfFuel
  | S fuel' =>
      match scan_once fuel' s with
      | Ok v r =>
          match skip_ws r with
          | c :: r' =>
              if N.eqb c 93 then Ok (PList (rev (v :: acc))) r'
              else if N.eqb c 44 then parse_elements fuel' (skip_ws r') (v :: acc)
              else Malformed
          | [] => Malformed
          end
      | Malformed => Malformed
      | OutOfFuel => OutOfFuel
      end
  end

with parse_members (fuel : nat) (s : str) (acc : list (str * pyval)) {struct fuel}
  : scanned pyval :=
  match fuel with
  | O => OutOfFuel
  | S fuel' =>
      match s with
      | q :: r =>
          if N.eqb q 34 then
            match scanstring r [] with
            | Some (key, r1) =>
                match skip_ws r1 with
                | c :: r2 =>
                    if N.eqb c 58 then
                      match scan_once fuel' (skip_ws r2) with
                      | Ok v r3 =>
                          let d := dict_set acc key v in
                          match skip_ws r3 with
                          | c' :: r4 =>
                              if N.eqb c' 125 then Ok (PDict d) r4
                              else if N.eqb c' 44 then parse_members fuel' (skip_ws r4) d
                              else Malformed
                          | [] => Malformed
                          end
                      | Malformed => Malformed
                      | OutOfFuel => OutOfFuel
                      end
                    else Malformed
                | [] => Malformed
                end
            | None => Malformed
            end
          else Malformed
      | [] => Malformed
      end
  end.

(** One value with white space around it, and nothing else. *)
Definition decode (fuel : nat) (s : str) : scanned pyval :=
  match scan_once fuel (skip_ws s) with
  | Ok v r => match skip_ws r with [] => Ok v [] | _ => Malformed end
  | Malformed => Malformed
  | OutOfFuel => OutOfFuel
  end.

Definition json_fuel (s : str) : nat := 2 * length s + 2.

(** [json.loads(s)] *)
Definition json_loads (s : str) : exn + pyval :=
  match decode (json_fuel s) s with
  | Ok v _ => inr v
  | _ => inl (JSONDecodeError s)
  end.

(** ** The world the scripts act on

    [requests.post] sends a request and the endpoint answers: the call
    raises (no connection, timeout), or returns a response whose
    [raise_for_status()] raises or not (the library decides it from the
    status code) and whose [json()] raises or returns the decoded body.
    The world is the endpoint, the number of requests it has received, and
    the trace of what the scripts did: requests, sleeps and printed lines.
    A step of a script returns a value or raises an exception that leaves
    the enclosing function, and the steps after it are not run. *)

Record Message : Type := { role : str; content : str }.

Record Payload : Type := { model : str; messages : list Message }.

Record Request : Type := {
  url : str;
  json : Payload;
  headers : list (str * str);
  verify : bool;
  timeout : Z
}.

Record Response : Type := {
  raise_for_status : option exn;
  response_json : exn + pyval
}.

Inductive Event : Type :=
| EvPost (request : Request)
| EvSleep (seconds : Z)
| EvPrint (line : str).

Record World : Type := {
  endpoint : nat -> Request -> exn + Response;
  sent : nat;
  trace : list Event
}.

Definition M (A : Type) : Type := World -> (exn + A) * World.

Definition ret {A} (a : A) : M A := fun w => (inr a, w).

Definition raise {A} (e : exn) : M A := fun w => (inl e, w).

Definition bind {A B} (c : M A) (k : A -> M B) : M B :=
  fun w =>
    match c w with
    | (inr a, w') => k a w'
    | (inl e, w') => (inl e, w')
    end.

Notation "x <- c ;; k" := (bind c (fun x => k))
  (at level 61, c at next level, right associativity).
Notation "c ;; k" := (bind c (fun _ => k))
  (at level 61, right associativity).

Definition emit (e : Event) : M unit :=
  fun w =>
    (inr tt, {| endpoint := endpoint w; sent := sent w; trace := trace w ++ [e] |}).

(** [requests.post(...)] inside a [try]: the exception it raises, or the
    response it returns, is handed to the [try] statement. *)
Definition requests_post (request : Request) : M (exn + Response) :=
  fun w =>
    (inr (endpoint w (sent w) request),
     {| endpoint := endpoint w; sent := S (sent w);
        trace := trace w ++ [EvPost request] |}).

(** [time.sleep(seconds)] *)
Definition time_sleep (seconds : Z) : M unit := emit (EvSleep seconds).

(** [print(line)]: the line is encoded for standard output as a whole, and
    nothing is written when the encoding fails. *)
Definition print {RT : Runtime} (line : str) : M unit :=
  if printable line then emit (EvPrint line)
  else raise (UnicodeEncodeError line).

(** What happened between two worlds. *)
Definition is_post (e : Event) : bool :=
  match e with EvPost _ => true | _ => false end.
Definition is_sleep (e : Event) : bool :=
  match e with EvSleep _ => true | _ => false end.

Definition count_posts (t : list Event) : nat := length (filter is_post t).
Definition count_sleeps (t : list Event) : nat := length (filter is_sleep t).

(** A spreadsheet cell as pandas hands it over: missing ([NaN]), a text, or
    any other scalar, given by its [str()]. *)
Inductive cell : Type :=
| NaN
| Text (s : str)
| Scalar (shown : str).

(** [pd.isna(value)] *)
Definition isna (value : cell) : bool :=
  match value with NaN => true | _ => false end.

(** [str(value)] *)
Definition cell_str (value : cell) : str :=
  match value with
  | NaN => lit "nan"
  | Text s => s
  | Scalar shown => shown
  end.

(** ** The retry loop

    [summarize_with_llm] (in [summarize.py] and [virgullu.py]) and
    [call_llm] (in [topic.py]) are one loop: they differ in what the [try]
    body returns from the content it read ([finish]) and in the marker of
    the string returned when every attempt has failed. *)

Section Client.
Context {RT : Runtime}.
Variable MAX_RETRIES : nat.
Variable request : Request.
Variable finish : pyval -> exn + pyval.
Variable marker : str.

(** [data["choices"][0]["message"]["content"]] *)
Definition message_content (data : pyval) : exn + pyval :=
  try! choices <- getitem_key data (lit "choices") ;;
  try! first <- getitem_0 choices ;;
  try! message <- getitem_key first (lit "message") ;;
  getitem_key message (lit "content").

(** The [try] body, from the answer of [requests.post] on. *)
Definition read_reply (reply : exn + Response) : exn + pyval :=
  try! response <- reply ;;
  try! _ <- match raise_for_status response with
            | Some e => inl e
            | None => inr tt
            end ;;
  try! data <- response_json response ;;
  try! content <- message_content data ;;
  finish content.

Definition warning (attempt : nat) (e : exn) : str :=
  lit "[WARN] LLM request failed (attempt " ++ str_of_nat attempt
    ++ lit "/" ++ str_of_nat MAX_RETRIES ++ lit "): " ++ str_exn e.

(** [for attempt in attempts: try: ... except Exception as e: ...], and
    the [return] after the loop.  The [print] of the handler is outside
    the [try]: what it raises leaves the function. *)
Fixpoint retry_loop (attempts : list nat) (last_error : option exn) : M pyval :=
  match attempts with
  | [] => ret (PStr (marker ++ str_opt_exn last_error))
  | attempt :: rest =>
      reply <- requests_post request ;;
      match read_reply reply with
      | inr result => ret result
      | inl e =>
          print (warning attempt e) ;;
          (if attempt <? MAX_RETRIES then time_sleep 1 else ret tt) ;;
          retry_loop rest (Some e)
      end
  end.

(** [range(1, MAX_RETRIES + 1)] *)
Definition attempt_range : list nat := seq 1 MAX_RETRIES.

Definition with_retries : M pyval := retry_loop attempt_range None.
End Client.

Definition nl : str := [10%N].

(** [if s:] on a string *)
Definition truthy (s : str) : bool :=
  match s with [] => false | _ => true end.

(** [if (idx + 1) % 10 == 0: print(f"Processed {idx + 1} rows...")] *)
Definition progress {RT : Runtime} (idx : nat) : M unit :=
  if (idx + 1) mod 10 =? 0
  then print (lit "Processed " ++ str_of_nat (idx + 1) ++ lit " rows...")
  else ret tt.

(** ** [summarize.py] *)

Module Summarize.

Definition MODEL_NAME : str := lit "llama3".
Definition BASE_URL : str := lit "http://localhost:4000/v1/chat/completions".
Definition INPUT_EXCEL_PATH : str := lit "input.xlsx".
Definition OUTPUT_EXCEL_PATH : str := lit "output_with_summary.xlsx".
Definition VERIFY_SSL : bool := false.
Definition MAX_RETRIES : nat := 2.
Definition TIMEOUT_SECONDS : Z := 120.
Definition HEADERS : list (str * str) :=
  [(lit "Content-Type", lit "application/json")].

Definition build_messages (transcript : str) : list Message :=
  [ {| role := lit "system";
       content :=
         lit "You are an assistant that summarizes phone call transcripts. "
         ++ lit "Write a clear, concise summary of the call in 3"
         ++ [8211%N] ++ lit "5 sentences." |};
    {| role := lit "user";
       content :=
         lit "Here is the call transcript:" ++ nl ++ nl ++ transcript
         ++ nl ++ nl ++ lit "Please provide only the summary." |} ].

Definition summary_request (transcript : str) : Request :=
  {| url := BASE_URL;
     json := {| model := MODEL_NAME; messages := build_messages transcript |};
     headers := HEADERS;
     verify := VERIFY_SSL;
     timeout := TIMEOUT_SECONDS |}.

Section Run.
Context {RT : Runtime}.

(** The [try] body ends in [return summary.strip()]. *)
Definition summarize_with_llm (transcript : str) : M pyval :=
  with_retries MAX_RETRIES (summary_request transcript) method_strip
    (lit "[SUMMARY_ERROR] ").

(** The body of [main]'s loop over the sixth column. *)
Definition summarize_row (idx : nat) (value : cell) : M pyval :=
  let transcript := if isna value then [] else strip (cell_str value) in
  summary <- (if truthy transcript then summarize_with_llm transcript
              else ret (PStr [])) ;;
  progress idx ;;
  ret summary.

Fixpoint rows_loop (idx : nat) (values : list cell) (summaries : list pyval)
  : M (list pyval) :=
  match values with
  | [] => ret summaries
  | value :: rest =>
      summary <- summarize_row idx value ;;
      rows_loop (S idx) rest (summaries ++ [summary])
  end.

(** [main], from the sixth column of the input sheet to the column of
    summaries the output sheet gains. *)
Definition main (call_text_series : list cell) : M (list pyval) :=
  print (lit "Reading input Excel: " ++ INPUT_EXCEL_PATH) ;;
  print (lit "Starting summarization...") ;;
  summaries <- rows_loop 0 call_text_series [] ;;
  print (lit "Writing output Excel: " ++ OUTPUT_EXCEL_PATH) ;;
  print (lit "Done.") ;;
  ret summaries.
End Run.

End Summarize.

(** ** [virgullu.py] *)

Module Virgullu.

Definition MODEL_NAME : str := lit "llama3".
Definition BASE_URL : str := lit "http://localhost:4000/v1/chat/completions".
Definition INPUT_EXCEL_PATH : str := lit "input_single_column.xlsx".
Definition OUTPUT_EXCEL_PATH : str := lit "output_structured_with_summary.xlsx".
Definition VERIFY_SSL : bool := false.
Definition MAX_RETRIES : nat := 2.
Definition TIMEOUT_SECONDS : Z := 120.
Definition HEADERS : list (str * str) :=
  [(lit "Content-Type", lit "application/json")].

Definition build_messages (transcript : str) : list Message :=
  [ {| role := lit "system";
       content :=
         lit "You are an assistant that summarizes phone call transcripts. "
         ++ lit "Write a clear, concise summary of the call in 3"
         ++ [8211%N] ++ lit "5 sentences." |};
    {| role := lit "user";
       content :=
         lit "Here is the call transcript:" ++ nl ++ nl ++ transcript
         ++ nl ++ nl ++ lit "Please provide only the summary." |} ].

Definition summary_request (transcript : str) : Request :=
  {| url := BASE_URL;
     json := {| model := MODEL_NAME; messages := build_messages transcript |};
     headers := HEADERS;
     verify := VERIFY_SSL;
     timeout := TIMEOUT_SECONDS |}.

(** [parts = [p.strip() for p in row_text.split(",")]], padded to six
    with empty strings, and [parts[:6]]. *)
Definition first_six_of (row_text : str) : list str :=
  let parts := map strip (split 44 row_text) in
  let parts :=
    if length parts <? 6 then parts ++ repeat [] (6 - length parts)
    else parts in
  slice parts 0 6.

Section Run.
Context {RT : Runtime}.

Definition summarize_with_llm (transcript : str) : M pyval :=
  with_retries MAX_RETRIES (summary_request transcript) method_strip
    (lit "[SUMMARY_ERROR] ").

(** The body of [main]'s loop over the single column. *)
Definition structure_row (idx : nat) (value : cell) : M (list str * pyval) :=
  let row_text := if isna value then [] else cell_str value in
  let first_six := first_six_of row_text in
  let transcript := nth 5 first_six [] in
  summary <- (if truthy transcript then summarize_with_llm transcript
              else ret (PStr [])) ;;
  progress idx ;;
  ret (first_six, summary).

Fixpoint rows_loop (idx : nat) (values : list cell)
    (first_six_columns_rows : list (list str)) (summaries : list pyval)
  : M (list (list str) * list pyval) :=
  match values with
  | [] => ret (first_six_columns_rows, summaries)
  | value :: rest =>
      r <- structure_row idx value ;;
      rows_loop (S idx) rest (first_six_columns_rows ++ [fst r])
        (summaries ++ [snd r])
  end.

Definition main (single_col_series : list cell)
  : M (list (list str) * list pyval) :=
  print (lit "Reading input Excel: " ++ INPUT_EXCEL_PATH) ;;
  print (lit "Starting parsing and summarization...") ;;
  out <- rows_loop 0 single_col_series [] [] ;;
  print (lit "Writing output Excel: " ++ OUTPUT_EXCEL_PATH) ;;
  print (lit "Done.") ;;
  ret out.
End Run.

End Virgullu.

(** ** [topic.py] *)

Module Topic.

Definition MODEL_NAME : str := lit "llama3".
Definition BASE_URL : str := lit "http://localhost:4000/v1/chat/completions".
Definition SUMMARY_EXCEL_PATH : str := lit "output_with_summary.xlsx".
Definition CATEGORY_EXCEL_PATH : str := lit "categories.xlsx".
Definition OUTPUT_EXCEL_PATH : str := lit "output_with_topics.xlsx".
Definition VERIFY_SSL : bool := false.
Definition MAX_RETRIES : nat := 2.
Definition TIMEOUT_SECONDS : Z := 120.
Definition HEADERS : list (str * str) :=
  [(lit "Content-Type", lit "application/json")].

(** [load_categories], from the first two columns of the category sheet
    (main category, subcategory): [astype(str)] and [str.strip()] on each
    column, then one dictionary write per row.  [astype(str)] turns a
    missing cell into the text [nan]. *)
Definition load_categories (rows : list (cell * cell))
  : list str * list (str * str) :=
  let main_series := map (fun r => strip (cell_str (fst r))) rows in
  let sub_series := map (fun r => strip (cell_str (snd r))) rows in
  let sub_to_main :=
    fold_left (fun d ms => dict_set d (snd ms) (fst ms))
      (combine main_series sub_series) [] in
  (dict_keys sub_to_main, sub_to_main).

Definition build_classification_messages (summary_text : str)
    (subcategories : list str) : list Message :=
  let subcat_list_text := join nl (map (fun s => lit "- " ++ s) subcategories) in
  let system_msg :=
    lit "You are an assistant that classifies call summaries into predefined subcategories. "
    ++ lit "You MUST choose exactly 3 DISTINCT subcategories from the given list. "
    ++ lit "Return ONLY valid JSON, with no extra text." in
  let user_msg :=
    join nl
      [ lit "";
        lit "Here is the call summary:";
        lit "";
        jlit "'''" ++ summary_text ++ jlit "'''";
        lit "";
        lit "Here is the list of AVAILABLE subcategories (you MUST select only from these, do not invent new ones):";
        lit "";
        subcat_list_text;
        lit "";
        lit "Task:";
        lit "- Select the 3 most relevant subcategories for this summary.";
        lit "- They must be distinct and come from the list above.";
        lit "- Return ONLY valid JSON in this exact format:";
        lit "";
        lit "{";
        jlit "  'subcategories': [";
        jlit "    'sub_category_name_1',";
        jlit "    'sub_category_name_2',";
        jlit "    'sub_category_name_3'";
        lit "  ]";
        lit "}";
        lit "" ] in
  [ {| role := lit "system"; content := system_msg |};
    {| role := lit "user"; content := user_msg |} ].

Definition llm_request (messages : list Message) : Request :=
  {| url := BASE_URL;
     json := {| model := MODEL_NAME; messages := messages |};
     headers := HEADERS;
     verify := VERIFY_SSL;
     timeout := TIMEOUT_SECONDS |}.

(** [parsed.get("subcategories", [])] *)
Definition get_subcategories (parsed : pyval) : exn + pyval :=
  match parsed with
  | PDict d =>
      match dict_get d (lit "subcategories") with
      | Some v => inr v
      | None => inr (PList [])
      end
  | _ => inl (no_attribute parsed (lit "get"))
  end.

(** [raw_content.strip()], then the span from the first opening brace to
    the last closing one when both are there. *)
Definition json_span (raw_content : pyval) : exn + str :=
  match raw_content with
  | PStr s =>
      let text := strip s in
      let first_brace := find 123 text in
      let last_brace := rfind 125 text in
      if (negb (first_brace =? -1) && negb (last_brace =? -1))%Z
      then inr (slice text first_brace (last_brace + 1))
      else inr text
  | _ => inl (no_attribute raw_content (lit "strip"))
  end.

(** Exactly 3: [sub_list[:3]], or padded with empty strings. *)
Definition exactly_three (sub_list : list str) : list str :=
  if 3 <? length sub_list then slice sub_list 0 3
  else if length sub_list <? 3 then sub_list ++ repeat [] (3 - length sub_list)
  else sub_list.

Section Run.
Context {RT : Runtime}.

(** The [try] body ends in [return content]. *)
Definition call_llm (messages : list Message) : M pyval :=
  with_retries MAX_RETRIES (llm_request messages) (fun content => inr content)
    (lit "[LLM_ERROR] ").

(** [[str(s).strip() for s in sub_list if str(s).strip()]] *)
Definition stripped_names (elements : list pyval) : list str :=
  map (fun s => strip (py_str s))
    (filter (fun s => truthy (strip (py_str s))) elements).

(** The [try] body of [classify_summary]. *)
Definition parse_subcategories (raw_content : pyval) : exn + list str :=
  try! text <- json_span raw_content ;;
  try! parsed <- json_loads text ;;
  try! sub_list <- get_subcategories parsed ;;
  try! elements <- iterate sub_list ;;
  inr (exactly_three (stripped_names elements)).

(** The [try] statement of [classify_summary]: what becomes of the
    assistant's text.  Nothing guards the two [print]s of the handler. *)
Definition extract_classification (raw_content : pyval) : M (list str) :=
  match parse_subcategories raw_content with
  | inr sub_list => ret sub_list
  | inl e =>
      print (lit "[ERROR] Failed to parse JSON from LLM response: " ++ str_exn e) ;;
      print (lit "Raw content was: " ++ py_str raw_content) ;;
      ret [[]; []; []]
  end.

(** [not summary_text or summary_text.strip() == ""] *)
Definition is_blank (summary_text : str) : bool :=
  negb (truthy summary_text) || str_eqb (strip summary_text) [].

Definition classify_summary (summary_text : str) (subcategories : list str)
  : M (list str) :=
  if is_blank summary_text then ret []
  else
    raw_content <- call_llm (build_classification_messages summary_text subcategories) ;;
    extract_classification raw_content.

(** [s1, s2, s3 = chosen_subs if len(chosen_subs) == 3 else ["", "", ""]] *)
Definition three_slots (chosen_subs : list str) : str * str * str :=
  match chosen_subs with
  | [s1; s2; s3] => (s1, s2, s3)
  | _ => ([], [], [])
  end.

(** [sub_to_main.get(s, "") if s else ""] *)
Definition main_category (sub_to_main : list (str * str)) (s : str) : str :=
  if truthy s then
    match dict_get sub_to_main s with
    | Some m => m
    | None => []
    end
  else [].

(** One output row: the three subcategories, each followed by its main
    category. *)
Record Topics : Type := {
  sub_category_1 : str; main_category_1 : str;
  sub_category_2 : str; main_category_2 : str;
  sub_category_3 : str; main_category_3 : str
}.

(** The body of [main]'s loop over the seventh column. *)
Definition classify_row (subcategories : list str)
    (sub_to_main : list (str * str)) (idx : nat) (value : cell) : M Topics :=
  let summary_text := if isna value then [] else cell_str value in
  chosen_subs <- classify_summary summary_text subcategories ;;
  let '(s1, s2, s3) := three_slots chosen_subs in
  let m1 := main_category sub_to_main s1 in
  let m2 := main_category sub_to_main s2 in
  let m3 := main_category sub_to_main s3 in
  progress idx ;;
  ret {| sub_category_1 := s1; main_category_1 := m1;
         sub_category_2 := s2; main_category_2 := m2;
         sub_category_3 := s3; main_category_3 := m3 |}.

Fixpoint rows_loop (subcategories : list str) (sub_to_main : list (str * str))
    (idx : nat) (values : list cell) (out : list Topics) : M (list Topics) :=
  match values with
  | [] => ret out
  | value :: rest =>
      row <- classify_row subcategories sub_to_main idx value ;;
      rows_loop subcategories sub_to_main (S idx) rest (out ++ [row])
  end.

(** [main], from the two category columns and the seventh column of the
    summary sheet to the six columns the output sheet gains. *)
Definition main (category_rows : list (cell * cell)) (summary_series : list cell)
  : M (list Topics) :=
  print (lit "Reading category Excel: " ++ CATEGORY_EXCEL_PATH) ;;
  let (subcategories, sub_to_main) := load_categories category_rows in
  print (lit "Loaded " ++ str_of_nat (length subcategories) ++ lit " subcategories.") ;;
  print (lit "Reading summary Excel: " ++ SUMMARY_EXCEL_PATH) ;;
  print (lit "Starting classification...") ;;
  out <- rows_loop subcategories sub_to_main 0 summary_series [] ;;
  print (lit "Writing output Excel: " ++ OUTPUT_EXCEL_PATH) ;;
  print (lit "Done.") ;;
  ret out.
End Run.

End Topic.

(** * The vocabulary of the properties *)

(** A string is trimmed when [strip] leaves it as it is. *)
Definition trimmed (s : str) : Prop := strip s = s.

(** [r] is a tail of [s]: what a scanner leaves of a text. *)
Inductive tail_of (r : str) : str -> Prop :=
| tail_here : tail_of r r
| tail_cons (c : N) (s : str) : tail_of r s -> tail_of r (c :: s).

(** [r] is what is left of [s] after at least one character. *)
Definition consumed (s r : str) : Prop :=
  exists c s', s = c :: s' /\ tail_of r s'.

(** The world after [n] more requests and the events [evs]. *)
Definition advance (w : World) (n : nat) (evs : list Event) : World :=
  {| endpoint := endpoint w; sent := sent w + n; trace := trace w ++ evs |}.

(** Blocks of events with [sep] between them, and only between them. *)
Fixpoint between {A} (sep : list A) (blocks : list (list A)) : list A :=
  match blocks with
  | [] => []
  | [b] => b
  | b :: bs => b ++ sep ++ between sep bs
  end.

(** The answer of the endpoint holds the assistant's message [content]:
    the call returned, the status raised nothing, and the body decoded to
    the expected shape. *)
Definition succeeds_with (reply : exn + Response) (content : pyval) : Prop :=
  exists response data,
    reply = inr response
    /\ raise_for_status response = None
    /\ response_json response = inr data
    /\ message_content data = inr content.

Section ClientVocabulary.
Context {RT : Runtime}.
Variable MAX_RETRIES : nat.
Variable request : Request.
Variable finish : pyval -> exn + pyval.

(** What a failed attempt leaves in the trace, the sleep apart: the
    request and the warning with the attempt's number and its error. *)
Definition attempt_block (ae : nat * exn) : list Event :=
  [EvPost request; EvPrint (warning MAX_RETRIES (fst ae) (snd ae))].

(** From [w] on, the next replies fail with the errors of [errors], in
    this order. *)
Definition replies_fail (w : World) (errors : list exn) : Prop :=
  forall i e, nth_error errors i = Some e ->
    read_reply finish (endpoint w (sent w + i) request) = inl e.

(** The events of failed attempts, as the loop produces them. *)
Fixpoint failure_events (attempts : list nat) (errors : list exn) : list Event :=
  match attempts, errors with
  | a :: attempts', e :: errors' =>
      attempt_block (a, e)
        ++ (if a <? MAX_RETRIES then [EvSleep 1] else [])
        ++ failure_events attempts' errors'
  | _, _ => []
  end.

End ClientVocabulary.





(** [out] is a value that satisfies [P], or else the error of a [print]
    whose line standard output cannot encode: no other exception leaves. *)
Definition unless_print_fails {RT : Runtime} {A} (P : A -> Prop) (out : exn + A)
  : Prop :=
  match out with
  | inr a => P a
  | inl e => exists line, e = UnicodeEncodeError line /\ printable line = false
  end.

(** Standard output encodes every character: it never makes [print]
    raise. *)
Definition prints_everything {RT : Runtime} : Prop :=
  forall c, stdout_encodes c = true.

(** The two lines [classify_summary] prints when its [try] body raised. *)
Definition parse_failure_lines {RT : Runtime} (e : exn) (raw_content : pyval)
  : list Event :=
  [ EvPrint (lit "[ERROR] Failed to parse JSON from LLM response: " ++ str_exn e);
    EvPrint (lit "Raw content was: " ++ py_str raw_content) ].

(** A reference runtime and some worlds, to run the scripts on. *)

Definition plain_runtime : Runtime :=
  {| repr_value := fun v => lit "<" ++ type_name v ++ lit ">";
     json_error_message := fun _ => lit "Expecting value";
     stdout_encodes := fun c => negb (is_high_surrogate c || is_low_surrogate c);
     encode_error_message := fun _ => lit "surrogates not allowed" |}.

(** The body of a successful chat completion. *)
Definition chat_body (content : pyval) : pyval :=
  PDict [(lit "choices",
          PList [PDict [(lit "message", PDict [(lit "content", content)])]])].

Definition ok_response (content : pyval) : exn + Response :=
  inr {| raise_for_status := None; response_json := inr (chat_body content) |}.

(** A fresh world whose endpoint gives the same answer to every request. *)
Definition replying (reply : exn + Response) : World :=
  {| endpoint := fun _ _ => reply; sent := 0; trace := [] |}.


Definition connection_refused : exn :=
  Raised (lit "ConnectionError") (lit "connection refused").

(** In a list of events every sleep is followed at once by a request. *)
Fixpoint sleeps_precede_posts (evs : list Event) : bool :=
  match evs with
  | [] => true
  | EvSleep _ :: rest =>
      match rest with
      | EvPost _ :: _ => sleeps_precede_posts rest
      | _ => false
      end
  | _ :: rest => sleeps_precede_posts rest
  end.

(** [run] keeps the discipline of the retry loop whatever the endpoint
    answers: the events it adds to the world start with the request; there
    are between 1 and [MAX] requests, all of them [request]; there is one
    sleep less than requests, each of 1 and each followed at once by the
    next request. *)
Definition disciplined (MAX : nat) (request : Request) (run : M pyval) : Prop :=
  forall w, exists evs,
    snd (run w) = advance w (count_posts evs) evs
    /\ hd_error evs = Some (EvPost request)
    /\ 1 <= count_posts evs <= MAX
    /\ count_sleeps evs = count_posts evs - 1
    /\ sleeps_precede_posts evs = true
    /\ Forall (fun e => is_post e = true -> e = EvPost request) evs
    /\ Forall (fun e => is_sleep e = true -> e = EvSleep 1) evs.

(** [s] starts with [p]. *)
Definition starts_with (p s : str) : Prop := exists rest, s = p ++ rest.

(** The step [load_categories] makes for one row. *)
Definition catalog_step (d : list (str * str)) (row : cell * cell) : list (str * str) :=
  dict_set d (strip (cell_str (snd row))) (strip (cell_str (fst row))).

(** The rows a script sends a request for: in [summarize.py] those whose
    sixth cell has a transcript, in [virgullu.py] those whose sixth
    comma-separated part is not empty, in [topic.py] those whose summary
    is not blank. *)
Definition summarize_asks (value : cell) : bool :=
  truthy (if isna value then [] else strip (cell_str value)).

Definition virgullu_asks (value : cell) : bool :=
  truthy (nth 5 (Virgullu.first_six_of (if isna value then [] else cell_str value)) []).

Definition topic_asks (value : cell) : bool :=
  negb (Topic.is_blank (if isna value then [] else cell_str value)).

(** The cell a sheet of six columns would hold in its sixth column for a
    row of the single-column sheet: the sixth of the parts [virgullu.py]
    extracts. *)
Definition sixth_field (value : cell) : cell :=
  Text (nth 5 (Virgullu.first_six_of (if isna value then [] else cell_str value)) []).

(** The summaries of an outcome of [virgullu.py]'s loop, its columns left
    out. *)
Definition summaries_of {A B} (out : (exn + A * B) * World) : (exn + B) * World :=
  (match fst out with
   | inr r => inr (snd r)
   | inl e => inl e
   end, snd out).

(** * Properties *)

(** ** The model on small inputs *)

Example strip_example : strip (lit "  a b  ") = lit "a b".
Proof. reflexivity. Qed.

Example split_example :
  split 44 (lit "a,,b,") = [lit "a"; lit ""; lit "b"; lit ""]
  /\ split 44 (lit "") = [lit ""].
Proof. split; reflexivity. Qed.

Example find_example :
  find 123 (lit "ab{c{") = 2%Z /\ rfind 123 (lit "ab{c{") = 4%Z
  /\ find 125 (lit "ab") = (-1)%Z.
Proof. repeat split. Qed.

Example slice_example :
  slice (lit "abcdef") 2 5 = lit "cde" /\ slice (lit "abcdef") 4 2 = [].
Proof. split; reflexivity. Qed.

Example json_loads_example :
  json_loads (jlit " {'a': [1, -2.5e3, true, null], 'b': 'x\u0041', 'a': []} ")
  = inr (PDict [(lit "a", PList []); (lit "b", PStr (lit "xA"))])
  /\ json_loads (jlit "[1,]") = inl (JSONDecodeError (jlit "[1,]"))
  /\ json_loads (jlit "01") = inl (JSONDecodeError (jlit "01"))
  /\ json_loads (jlit "{'a':1} x") = inl (JSONDecodeError (jlit "{'a':1} x")).
Proof. repeat split. Qed.

(** A world that refuses every connection: two requests, one sleep between
    them, and the marker with the last error. *)
Example refused_example :
  @Summarize.summarize_with_llm plain_runtime (lit "hi")
    (replying (inl connection_refused))
  = (inr (PStr (lit "[SUMMARY_ERROR] connection refused")),
     {| endpoint := fun _ _ => inl connection_refused;
        sent := 2;
        trace :=
          [ EvPost (Summarize.summary_request (lit "hi"));
            EvPrint (lit "[WARN] LLM request failed (attempt 1/2): connection refused");
            EvSleep 1;
            EvPost (Summarize.summary_request (lit "hi"));
            EvPrint (lit "[WARN] LLM request failed (attempt 2/2): connection refused") ] |}).
Proof. reflexivity. Qed.

(** A JSON escape of a lone surrogate decodes to that surrogate, which
    UTF-8 cannot encode: the second [print] of the handler raises, after
    the first line was written. *)
Example unprintable_example :
  json_loads (jlit "'\ud800'") = inr (PStr [55296%N])
  /\ @printable plain_runtime [55296%N] = false
  /\ @Topic.extract_classification plain_runtime (PStr [55296%N])
       (replying (inl connection_refused))
     = (inl (UnicodeEncodeError (lit "Raw content was: " ++ [55296%N])),
        advance (replying (inl connection_refused)) 0
          [EvPrint (lit "[ERROR] Failed to parse JSON from LLM response: Expecting value")]).
Proof. repeat split. Qed.

(** ** Strings *)

Lemma str_eqb_eq (a b : str) : str_eqb a b = true <-> a = b.
Proof.
  unfold str_eqb. destruct (list_eq_dec N.eq_dec a b); split; congruence.
Qed.

Lemma str_eqb_refl (a : str) : str_eqb a a = true.
Proof. now apply str_eqb_eq. Qed.

Lemma str_eqb_neq (a b : str) : str_eqb a b = false <-> a <> b.
Proof.
  unfold str_eqb. destruct (list_eq_dec N.eq_dec a b); split; congruence.
Qed.

Lemma truthy_false (s : str) : truthy s = false <-> s = [].
Proof. destruct s; simpl; split; congruence. Qed.

Lemma lstrip_nil_iff (s : str) : lstrip s = [] <-> forallb is_space s = true.
Proof.
  induction s as [|c r IH]; simpl; [tauto|].
  destruct (is_space c); simpl; [exact IH|]. split; discriminate.
Qed.

(** What is left of [lstrip] starts with a character that is no space. *)
Lemma lstrip_head (s : str) (c : N) (r : str) :
  lstrip s = c :: r -> is_space c = false.
Proof.
  induction s as [|x t IH]; simpl; [discriminate|].
  destruct (is_space x) eqn:E; [exact IH|]. intros [= <- _]. exact E.
Qed.

Lemma lstrip_idem (s : str) : lstrip (lstrip s) = lstrip s.
Proof.
  destruct (lstrip s) as [|c r] eqn:E; [reflexivity|].
  simpl. now rewrite (lstrip_head _ E).
Qed.

Lemma lstrip_snoc (a : str) (c : N) :
  lstrip (a ++ [c]) =
  match lstrip a with
  | [] => if is_space c then [] else [c]
  | x => x ++ [c]
  end.
Proof.
  induction a as [|x t IH]; simpl; [reflexivity|].
  destruct (is_space x); [exact IH | reflexivity].
Qed.

Lemma rstrip_cons (c : N) (r : str) :
  rstrip (c :: r) =
  match rstrip r with
  | [] => if is_space c then [] else [c]
  | x => c :: x
  end.
Proof.
  unfold rstrip. simpl rev. rewrite lstrip_snoc.
  destruct (lstrip (rev r)) as [|y t] eqn:E; simpl.
  - destruct (is_space c); reflexivity.
  - rewrite rev_app_distr. simpl.
    destruct (rev t ++ [y]) eqn:E'; [destruct (rev t); discriminate|reflexivity].
Qed.

Lemma rstrip_idem (s : str) : rstrip (rstrip s) = rstrip s.
Proof.
  unfold rstrip. now rewrite rev_involutive, lstrip_idem.
Qed.

Lemma rstrip_nil_iff (s : str) : rstrip s = [] <-> forallb is_space s = true.
Proof.
  unfold rstrip. split.
  - intros H. apply (f_equal (@rev N)) in H. rewrite rev_involutive in H.
    simpl in H. apply lstrip_nil_iff in H.
    rewrite forallb_forall in *. intros x Hx. apply H. now apply in_rev in Hx.
  - intros H. replace (lstrip (rev s)) with (@nil N); [reflexivity|].
    symmetry. apply lstrip_nil_iff. rewrite forallb_forall in *.
    intros x Hx. apply H. now apply in_rev.
Qed.

Lemma lstrip_rstrip_fixed (s : str) : lstrip s = s -> lstrip (rstrip s) = rstrip s.
Proof.
  destruct s as [|c r]; [reflexivity|].
  intros H. pose proof (lstrip_head _ H) as Hc.
  rewrite rstrip_cons. rewrite Hc.
  destruct (rstrip r); simpl; now rewrite Hc.
Qed.

Lemma strip_idem (s : str) : strip (strip s) = strip s.
Proof.
  unfold strip.
  rewrite (lstrip_rstrip_fixed (lstrip_idem s)). apply rstrip_idem.
Qed.

Lemma strip_trimmed (s : str) : trimmed (strip s).
Proof. apply strip_idem. Qed.

Lemma trimmed_nil : trimmed [].
Proof. reflexivity. Qed.

Lemma strip_nil_iff (s : str) : strip s = [] <-> forallb is_space s = true.
Proof.
  unfold strip. rewrite rstrip_nil_iff. split.
  - intros H. apply lstrip_nil_iff.
    destruct (lstrip s) as [|c r] eqn:E; [reflexivity|].
    simpl in H. now rewrite (lstrip_head _ E) in H.
  - intros H. apply lstrip_nil_iff in H. now rewrite H.
Qed.

Lemma lstrip_incl (s : str) (x : N) : In x (lstrip s) -> In x s.
Proof.
  induction s as [|c r IH]; simpl; [tauto|].
  destruct (is_space c); simpl; tauto.
Qed.

Lemma strip_incl (s : str) (x : N) : In x (strip s) -> In x s.
Proof.
  unfold strip, rstrip. intros H. apply in_rev in H.
  apply lstrip_incl in H. apply in_rev in H. now apply lstrip_incl.
Qed.

Lemma find_absent (c : N) (s : str) : ~ In c s -> find c s = (-1)%Z.
Proof.
  induction s as [|x r IH]; simpl; [reflexivity|].
  intros H. destruct (N.eqb_spec x c) as [->|_]; [tauto|].
  rewrite IH by tauto. reflexivity.
Qed.

Lemma rfind_absent (c : N) (s : str) : ~ In c s -> rfind c s = (-1)%Z.
Proof.
  induction s as [|x r IH]; simpl; [reflexivity|].
  intros H. rewrite IH by tauto. simpl.
  destruct (N.eqb_spec x c) as [->|_]; tauto.
Qed.

Lemma split_not_nil (sep : N) (s : str) : split sep s <> [].
Proof.
  induction s as [|c r IH]; simpl; [discriminate|].
  destruct (N.eqb c sep); [discriminate|].
  destruct (split sep r); [congruence|discriminate].
Qed.


(** ** The JSON decoder

    What a scanner leaves is a tail of what it was given, a value that was
    read took at least one character, the fuel [json_loads] gives is never
    used up, and a document that decodes to an object holds both braces. *)

Create HintDb tails.
#[local] Hint Constructors tail_of : tails.

Lemma tail_of_trans (a b c : str) : tail_of a b -> tail_of b c -> tail_of a c.
Proof. intros Hab Hbc. induction Hbc; auto with tails. Qed.

Lemma tail_of_length (r s : str) : tail_of r s -> length r <= length s.
Proof. induction 1; simpl; lia. Qed.

Lemma tail_of_in (r s : str) (x : N) : tail_of r s -> In x r -> In x s.
Proof. induction 1; simpl; auto. Qed.

Lemma consumed_tail (s r : str) : consumed s r -> tail_of r s.
Proof. intros (c & s' & -> & H). auto with tails. Qed.

Lemma consumed_length (s r : str) : consumed s r -> length r < length s.
Proof.
  intros (c & s' & -> & H). apply tail_of_length in H. simpl. lia.
Qed.

Lemma consumed_cons (c : N) (s r : str) : tail_of r s -> consumed (c :: s) r.
Proof. intros H. exists c, s. auto. Qed.

Lemma consumed_then_tail (s m r : str) : consumed s m -> tail_of r m -> consumed s r.
Proof.
  intros (c & s' & -> & H) Hr. exists c, s'. split; [reflexivity|].
  eapply tail_of_trans; eauto.
Qed.

Lemma tail_then_consumed (s m r : str) : tail_of m s -> consumed m r -> consumed s r.
Proof.
  intros Hm Hr. induction Hm; [exact Hr|].
  apply consumed_cons. now apply consumed_tail.
Qed.

#[local] Hint Resolve tail_of_trans consumed_tail consumed_cons : tails.

Lemma skip_ws_tail (s : str) : tail_of (skip_ws s) s.
Proof.
  induction s as [|c r IH]; simpl; [constructor|].
  destruct (is_json_ws c); auto with tails.
Qed.

#[local] Hint Resolve skip_ws_tail : tails.

Lemma strip_prefix_tail (p s r : str) : strip_prefix p s = Some r -> tail_of r s.
Proof.
  revert s. induction p as [|a p IH]; intros [|b s]; simpl; try discriminate.
  - intros [= <-]. constructor.
  - intros [= <-]. constructor.
  - destruct (N.eqb a b); [|discriminate]. intros H. constructor. now apply IH.
Qed.

Lemma span_digits_tail (s ds r : str) : span_digits s = (ds, r) -> tail_of r s.
Proof.
  revert ds r. induction s as [|c t IH]; simpl; intros ds r.
  - intros [= _ <-]. constructor.
  - destruct (is_digit c).
    + destruct (span_digits t) as [ds' r'] eqn:E. intros [= _ <-].
      constructor. eapply IH. reflexivity.
    + intros [= _ <-]. constructor.
Qed.

(** Destructs the innermost scrutinee of a [match] in the hypotheses. *)
Ltac break_hyp :=
  match goal with
  | H : context [match ?X with _ => _ end] |- _ =>
      lazymatch X with
      | context [match _ with _ => _ end] => fail
      | _ => destruct X eqn:?
      end
  end.

Ltac inv_pairs :=
  repeat match goal with
  | H : (_, _) = (_, _) |- _ => injection H as ? ?
  | H : Some _ = Some _ |- _ => injection H as ?
  | H : Ok _ _ = Ok _ _ |- _ => injection H as ? ?
  end; subst.

Lemma scan_fraction_tail (s f r : str) : scan_fraction s = (f, r) -> tail_of r s.
Proof.
  unfold scan_fraction. intros H.
  repeat break_hyp; inv_pairs; eauto using span_digits_tail with tails.
Qed.

Lemma scan_exponent_tail (s e r : str) : scan_exponent s = (e, r) -> tail_of r s.
Proof.
  unfold scan_exponent. intros H.
  repeat break_hyp; inv_pairs; eauto 6 using span_digits_tail with tails.
Qed.

Lemma scan_number_consumed (s : str) (v : pyval) (r : str) :
  scan_number s = Some (v, r) -> consumed s r.
Proof.
  unfold scan_number. intros H.
  repeat break_hyp; try discriminate; inv_pairs;
    repeat match goal with
    | H : scan_fraction _ = _ |- _ => apply scan_fraction_tail in H
    | H : scan_exponent _ = _ |- _ => apply scan_exponent_tail in H
    | H : span_digits _ = _ |- _ => apply span_digits_tail in H
    end;
    eauto 8 with tails.
Qed.

Lemma strip_prefix_consumed (p s r : str) :
  p <> [] -> strip_prefix p s = Some r -> consumed s r.
Proof.
  destruct p as [|a p]; [congruence|]. intros _.
  destruct s as [|b s]; simpl; [discriminate|].
  destruct (N.eqb a b); [|discriminate].
  intros H. apply consumed_cons. eapply strip_prefix_tail; eauto.
Qed.

Lemma scan_atom_consumed (s : str) (v : pyval) (r : str) :
  scan_atom s = Some (v, r) -> consumed s r.
Proof.
  unfold scan_atom. intros H.
  repeat break_hyp; inv_pairs;
    try (eapply strip_prefix_consumed; [|eassumption]; discriminate).
  now apply scan_number_consumed in H.
Qed.

(** An atom is never an object. *)
Lemma scan_number_atom (s : str) (v : pyval) (r : str) :
  scan_number s = Some (v, r) ->
  (exists z, v = PInt z) \/ (exists x, v = PFloat x).
Proof.
  unfold scan_number. intros H.
  repeat break_hyp; try discriminate; inv_pairs; eauto.
Qed.

Lemma scan_atom_not_dict (s : str) (d : list (str * pyval)) (r : str) :
  scan_atom s = Some (PDict d, r) -> False.
Proof.
  unfold scan_atom. intros H.
  repeat break_hyp; try discriminate.
  apply scan_number_atom in H. destruct H as [[z H]|[x H]]; discriminate.
Qed.

Lemma scanstring_consumed_bounded (n : nat) :
  forall s acc x r, length s <= n -> scanstring s acc = Some (x, r) -> consumed s r.
Proof.
  induction n as [|n IH]; intros s acc x r Hlen H.
  - destruct s; [discriminate|simpl in Hlen; lia].
  - destruct s as [|c t]; [discriminate|]. simpl in Hlen. simpl in H.
    repeat break_hyp; try discriminate; inv_pairs; apply consumed_cons;
      first
        [ match goal with
          | H : scanstring _ _ = Some _ |- _ =>
              apply IH in H; [|simpl in *; lia];
              apply consumed_tail in H;
              repeat first [exact H | apply tail_cons]
          end
        | constructor ].
Qed.

Lemma scanstring_consumed (s acc x r : str) :
  scanstring s acc = Some (x, r) -> consumed s r.
Proof. apply (scanstring_consumed_bounded (n := length s)). lia. Qed.

(** Turns what the hypotheses say of scanners into facts on tails. *)
Ltac tail_facts :=
  repeat match goal with
  | H : scanstring _ _ = Some _ |- _ => apply scanstring_consumed, consumed_tail in H
  | H : skip_ws ?a = _ |- _ =>
      let T := fresh "T" in pose proof (skip_ws_tail a) as T; rewrite H in T; clear H
  end.

(** Proves that one text is a tail of another along the facts at hand. *)
Ltac solve_tail :=
  solve
    [ apply tail_here
    | match goal with
      | |- tail_of (skip_ws ?m) _ =>
          apply (tail_of_trans (skip_ws_tail m)); solve_tail
      | T : tail_of ?r ?m |- tail_of ?r _ =>
          apply (tail_of_trans T); clear T; solve_tail
      | T : tail_of (?c :: ?r) ?m |- tail_of ?r _ =>
          apply (tail_of_trans (tail_cons c (tail_here r)));
          apply (tail_of_trans T); clear T; solve_tail
      end
    | apply tail_cons; solve_tail ].

Lemma scan_consumed (fuel : nat) :
  (forall s v r, scan_once fuel s = Ok v r -> consumed s r)
  /\ (forall s acc v r, parse_elements fuel s acc = Ok v r -> consumed s r)
  /\ (forall s acc v r, parse_members fuel s acc = Ok v r -> consumed s r).
Proof.
  induction fuel as [|f (IH1 & IH2 & IH3)];
    [repeat split; intros; discriminate|].
  repeat split.
  - intros s v r H. simpl in H.
    repeat break_hyp; try discriminate; inv_pairs;
      try (eapply scan_atom_consumed; eassumption);
      repeat match goal with
      | H : parse_members _ _ _ = Ok _ _ |- _ => apply IH3, consumed_tail in H
      | H : parse_elements _ _ _ = Ok _ _ |- _ => apply IH2, consumed_tail in H
      end;
      tail_facts; apply consumed_cons; solve_tail.
  - intros s acc v r H. simpl in H.
    repeat break_hyp; try discriminate; inv_pairs;
      repeat match goal with
      | H : parse_elements _ _ _ = Ok _ _ |- _ => apply IH2, consumed_tail in H
      end;
      match goal with
      | H : scan_once _ _ = Ok _ _ |- _ => apply IH1 in H
      end;
      tail_facts; (eapply consumed_then_tail; [eassumption|]); solve_tail.
  - intros s acc v r H. simpl in H.
    repeat break_hyp; try discriminate; inv_pairs;
      repeat match goal with
      | H : parse_members _ _ _ = Ok _ _ |- _ => apply IH3, consumed_tail in H
      | H : scan_once _ _ = Ok _ _ |- _ => apply IH1, consumed_tail in H
      end;
      tail_facts; apply consumed_cons; solve_tail.
Qed.

Lemma scan_once_consumed (fuel : nat) (s : str) (v : pyval) (r : str) :
  scan_once fuel s = Ok v r -> consumed s r.
Proof. apply scan_consumed. Qed.

(** And into facts on lengths. *)
Ltac length_facts :=
  tail_facts;
  repeat match goal with
  | H : scan_once _ _ = Ok _ _ |- _ => apply scan_once_consumed, consumed_length in H
  | T : tail_of _ _ |- _ => apply tail_of_length in T; simpl in T
  end;
  repeat match goal with
  | H : context [skip_ws ?m] |- _ =>
      lazymatch goal with
      | _ : length (skip_ws m) <= length m |- _ => fail
      | _ => pose proof (tail_of_length (skip_ws_tail m))
      end
  end.

(** The elements of an array make a list, the members of an object a
    dictionary, and the members end at a closing brace. *)
Lemma parse_elements_list (fuel : nat) :
  forall s acc v r, parse_elements fuel s acc = Ok v r -> exists l, v = PList l.
Proof.
  induction fuel as [|f IH]; intros s acc v r H; [discriminate|].
  simpl in H. repeat break_hyp; try discriminate; inv_pairs; eauto.
Qed.

Lemma parse_members_brace (fuel : nat) :
  forall s acc v r, parse_members fuel s acc = Ok v r -> In 125%N s.
Proof.
  induction fuel as [|f IH]; intros s acc v r H; [discriminate|].
  simpl in H. repeat break_hyp; try discriminate; inv_pairs;
    try match goal with
    | H : parse_members _ _ _ = Ok _ _ |- _ => apply IH in H
    end;
    repeat match goal with
    | H : scan_once _ _ = Ok _ _ |- _ => apply scan_once_consumed, consumed_tail in H
    | H : (_ =? 125)%N = true |- _ => apply N.eqb_eq in H; subst
    end;
    tail_facts; simpl; right.
  - match goal with
    | T : tail_of (125%N :: ?t) _ |- _ =>
        apply (tail_of_in (r := 125%N :: t)); [|left; reflexivity]
    end.
    solve_tail.
  - eapply tail_of_in; [|eassumption]. solve_tail.
Qed.

(** A value that is an object was read from an opening brace, and a
    closing one follows. *)
Lemma scan_once_dict (fuel : nat) (s : str) (d : list (str * pyval)) (r : str) :
  scan_once fuel s = Ok (PDict d) r ->
  exists t, s = 123%N :: t /\ In 125%N t.
Proof.
  destruct fuel as [|f]; [discriminate|]. simpl. intros H.
  repeat break_hyp; try discriminate; inv_pairs;
    try (exfalso; eapply scan_atom_not_dict; eassumption);
    try match goal with
    | H : parse_elements _ _ _ = Ok _ _ |- _ =>
        apply parse_elements_list in H; destruct H; discriminate
    end;
    repeat match goal with
    | H : (_ =? 123)%N = true |- _ => apply N.eqb_eq in H; subst
    | H : (_ =? 125)%N = true |- _ => apply N.eqb_eq in H; subst
    | H : parse_members _ _ _ = Ok _ _ |- _ => apply parse_members_brace in H
    end;
    tail_facts; eexists; (split; [reflexivity|]).
  - eapply tail_of_in; [eassumption|]. left; reflexivity.
  - eapply tail_of_in; eassumption.
Qed.

Lemma decode_dict (fuel : nat) (s : str) (d : list (str * pyval)) (r : str) :
  decode fuel s = Ok (PDict d) r -> In 123%N s /\ In 125%N s.
Proof.
  unfold decode. intros H.
  repeat break_hyp; try discriminate; inv_pairs.
  match goal with
  | H : scan_once _ _ = Ok _ _ |- _ =>
      apply scan_once_dict in H; destruct H as (t & E & Hin)
  end.
  pose proof (skip_ws_tail s) as T. rewrite E in T.
  split; eapply tail_of_in; try exact T; simpl; auto.
Qed.

(** [json.loads] gives an object only for a text that holds both braces. *)
Lemma json_loads_dict (s : str) (d : list (str * pyval)) :
  json_loads s = inr (PDict d) -> In 123%N s /\ In 125%N s.
Proof.
  unfold json_loads. intros H.
  destruct (decode (json_fuel s) s) as [v r| |] eqn:E; try discriminate.
  injection H as ->. eapply decode_dict; eassumption.
Qed.

(** The fuel is enough: twice the length of the text, and one more for a
    value, two more for the elements of an array or the members of an
    object. *)
Lemma scan_fuel_enough (fuel : nat) :
  (forall s, 2 * length s + 1 <= fuel -> scan_once fuel s <> OutOfFuel)
  /\ (forall s acc, 2 * length s + 2 <= fuel -> parse_elements fuel s acc <> OutOfFuel)
  /\ (forall s acc, 2 * length s + 2 <= fuel -> parse_members fuel s acc <> OutOfFuel).
Proof.
  induction fuel as [|f (IH1 & IH2 & IH3)]; [repeat split; intros; lia|].
  repeat split; intros; intros Hout; simpl in Hout;
    repeat break_hyp; try discriminate; length_facts;
    match goal with
    | H : scan_once _ _ = OutOfFuel |- _ => apply IH1 in H
    | H : parse_elements _ _ _ = OutOfFuel |- _ => apply IH2 in H
    | H : parse_members _ _ _ = OutOfFuel |- _ => apply IH3 in H
    end; try assumption; simpl in *; lia.
Qed.

(** [json_loads] never runs out of fuel: its failures are malformed
    documents. *)
Lemma decode_fuel_enough (s : str) : decode (json_fuel s) s <> OutOfFuel.
Proof.
  unfold decode, json_fuel. intros H.
  repeat break_hyp; try discriminate.
  eapply (proj1 (scan_fuel_enough _)); [|eassumption].
  pose proof (tail_of_length (skip_ws_tail s)). lia.
Qed.

(** ** The retry loop *)

Lemma advance_0 (w : World) : advance w 0 [] = w.
Proof.
  destruct w as [ep n t]. unfold advance. simpl.
  now rewrite Nat.add_0_r, app_nil_r.
Qed.

Lemma advance_advance (w : World) (n m : nat) (a b : list Event) :
  advance (advance w n a) m b = advance w (n + m) (a ++ b).
Proof.
  unfold advance. simpl. now rewrite Nat.add_assoc, app_assoc.
Qed.

Lemma time_sleep_run (seconds : Z) (w : World) :
  time_sleep seconds w = (inr tt, advance w 0 [EvSleep seconds]).
Proof. unfold time_sleep, emit, advance. now rewrite Nat.add_0_r. Qed.

Lemma requests_post_run (request : Request) (w : World) :
  requests_post request w =
  (inr (endpoint w (sent w) request), advance w 1 [EvPost request]).
Proof. unfold requests_post, advance. now rewrite Nat.add_1_r. Qed.

(** What standard output can write, and what [print] does. *)
Section Printing.
Context {RT : Runtime}.

Lemma printable_app (a b : str) :
  printable (a ++ b) = printable a && printable b.
Proof. apply forallb_app. Qed.

Lemma printable_part (a b c : str) :
  printable (a ++ b ++ c) = true -> printable b = true.
Proof.
  rewrite !printable_app, !andb_true_iff. tauto.
Qed.

Lemma printable_digits (d : Decimal.uint) :
  printable (lit (NilEmpty.string_of_uint d)) = true.
Proof. induction d; simpl; auto. Qed.

Lemma printable_str_of_nat (n : nat) : printable (str_of_nat n) = true.
Proof.
  unfold str_of_nat, NilZero.string_of_uint.
  destruct (Nat.to_uint n) eqn:E; try (rewrite <- E; apply printable_digits).
  reflexivity.
Qed.

Lemma prints_everything_printable (line : str) :
  prints_everything -> printable line = true.
Proof.
  intros H. apply forallb_forall. intros c _. unfold encodable.
  rewrite H. apply orb_true_r.
Qed.

Lemma print_run (line : str) (w : World) :
  printable line = true ->
  print line w = (inr tt, advance w 0 [EvPrint line]).
Proof.
  intros H. unfold print. rewrite H. unfold emit, advance.
  now rewrite Nat.add_0_r.
Qed.

Lemma print_fails (line : str) (w : World) :
  printable line = false ->
  print line w = (inl (UnicodeEncodeError line), w).
Proof. intros H. unfold print. now rewrite H. Qed.

(** [print] raises nothing but the error of the encoding, and then leaves
    the world as it was. *)
Lemma print_cases (line : str) (w : World) :
  print line w = (inr tt, advance w 0 [EvPrint line]) /\ printable line = true
  \/ print line w = (inl (UnicodeEncodeError line), w) /\ printable line = false.
Proof.
  destruct (printable line) eqn:E; [left|right]; split; auto.
  - now apply print_run.
  - now apply print_fails.
Qed.

(** The line of [progress] is ASCII: it is always written. *)
Lemma progress_run (idx : nat) (w : World) :
  exists lines,
    progress idx w = (inr tt, advance w 0 (map EvPrint lines)).
Proof.
  unfold progress. destruct ((idx + 1) mod 10 =? 0).
  - eexists [_]. apply print_run.
    now rewrite !printable_app, printable_str_of_nat.
  - exists []. unfold ret. now rewrite advance_0.
Qed.

Lemma warning_printable (MAX attempt : nat) (e : exn) :
  printable (warning MAX attempt e) = printable (str_exn e).
Proof.
  unfold warning. now rewrite !printable_app, !printable_str_of_nat.
Qed.

(** What leaves a sequence of two steps, when only [print] can fail. *)
Lemma bind_unless_print_fails {A B} (c : M A) (k : A -> M B)
    (P : A -> Prop) (Q : B -> Prop) (w : World) :
  unless_print_fails P (fst (c w)) ->
  (forall a w', P a -> unless_print_fails Q (fst (k a w'))) ->
  unless_print_fails Q (fst (bind c k w)).
Proof.
  unfold bind. destruct (c w) as [[e|a] w']; simpl; auto.
Qed.

Lemma unless_print_fails_weaken {A} (P Q : A -> Prop) (out : exn + A) :
  (forall a, P a -> Q a) ->
  unless_print_fails P out -> unless_print_fails Q out.
Proof. destruct out; simpl; auto. Qed.

Lemma print_unless_print_fails (line : str) (w : World) :
  unless_print_fails (fun _ => True) (fst (print line w)).
Proof.
  destruct (print_cases line w) as [[-> _]|[-> H]]; simpl; eauto.
Qed.

(** With a standard output that encodes everything, a value is returned. *)
Lemma unless_print_fails_returns {A} (P : A -> Prop) (out : exn + A) :
  prints_everything ->
  unless_print_fails P out -> exists a, out = inr a /\ P a.
Proof.
  intros Hall. destruct out as [e|a]; simpl; [|eauto].
  intros (line & _ & H).
  now rewrite (prints_everything_printable line Hall) in H.
Qed.

End Printing.

Lemma count_posts_app (a b : list Event) :
  count_posts (a ++ b) = count_posts a + count_posts b.
Proof. unfold count_posts. now rewrite filter_app, length_app. Qed.

Lemma count_sleeps_app (a b : list Event) :
  count_sleeps (a ++ b) = count_sleeps a + count_sleeps b.
Proof. unfold count_sleeps. now rewrite filter_app, length_app. Qed.

Lemma count_posts_prints (lines : list str) : count_posts (map EvPrint lines) = 0.
Proof. induction lines; simpl; auto. Qed.

(** The three ways an attempt fails, and the one way it succeeds. *)
Section Replies.
Variable finish : pyval -> exn + pyval.

Lemma read_reply_network_error (e : exn) :
  read_reply finish (inl e) = inl e.
Proof. reflexivity. Qed.

Lemma read_reply_status_error (response : Response) (e : exn) :
  raise_for_status response = Some e ->
  read_reply finish (inr response) = inl e.
Proof. intros H. unfold read_reply. simpl. now rewrite H. Qed.

Lemma read_reply_body_error (response : Response) (e : exn) :
  raise_for_status response = None ->
  response_json response = inl e ->
  read_reply finish (inr response) = inl e.
Proof. intros H1 H2. unfold read_reply. simpl. now rewrite H1, H2. Qed.

Lemma read_reply_shape_error (response : Response) (data : pyval) (e : exn) :
  raise_for_status response = None ->
  response_json response = inr data ->
  message_content data = inl e ->
  read_reply finish (inr response) = inl e.
Proof.
  intros H1 H2 H3. unfold read_reply. cbn [bind_exn].
  rewrite H1. cbn [bind_exn]. rewrite H2. cbn [bind_exn]. now rewrite H3.
Qed.

Lemma read_reply_success (reply : exn + Response) (content : pyval) :
  succeeds_with reply content ->
  read_reply finish reply = finish content.
Proof.
  intros (response & data & -> & H1 & H2 & H3).
  unfold read_reply. cbn [bind_exn].
  rewrite H1. cbn [bind_exn]. rewrite H2. cbn [bind_exn]. now rewrite H3.
Qed.
End Replies.

Lemma last_cons_default {A} (l : list A) (x d : A) : last (x :: l) d = last l x.
Proof.
  revert x d. induction l as [|y l IH]; intros x d; [reflexivity|].
  change (last (x :: y :: l) d) with (last (y :: l) d).
  now rewrite (IH y d), (IH y x).
Qed.

Section ClientFacts.
Context {RT : Runtime}.
Variable MAX_RETRIES : nat.
Variable request : Request.
Variable finish : pyval -> exn + pyval.
Variable marker : str.

#[local] Abbreviation loop := (retry_loop MAX_RETRIES request finish marker).

(** A failed attempt whose warning is written: the loop goes on. *)
Lemma retry_loop_fail_step (a : nat) (rest : list nat) (last_error : option exn)
    (w : World) (e : exn) :
  read_reply finish (endpoint w (sent w) request) = inl e ->
  printable (str_exn e) = true ->
  loop (a :: rest) last_error w =
  loop rest (Some e)
    (advance w 1 (attempt_block MAX_RETRIES request (a, e)
                    ++ if a <? MAX_RETRIES then [EvSleep 1] else [])).
Proof.
  intros H Hp. simpl. unfold bind. rewrite requests_post_run, H.
  rewrite print_run by now rewrite warning_printable.
  destruct (a <? MAX_RETRIES).
  - rewrite time_sleep_run, !advance_advance. reflexivity.
  - unfold ret. rewrite !advance_advance. simpl. reflexivity.
Qed.

(** A failed attempt whose warning cannot be written: the error of
    [print] leaves the loop, after the request and before any sleep. *)
Lemma retry_loop_fail_abort (a : nat) (rest : list nat) (last_error : option exn)
    (w : World) (e : exn) :
  read_reply finish (endpoint w (sent w) request) = inl e ->
  printable (str_exn e) = false ->
  loop (a :: rest) last_error w =
  (inl (UnicodeEncodeError (warning MAX_RETRIES a e)),
   advance w 1 [EvPost request]).
Proof.
  intros H Hp. simpl. unfold bind. rewrite requests_post_run, H.
  now rewrite print_fails by now rewrite warning_printable.
Qed.

Lemma retry_loop_ok_step (a : nat) (rest : list nat) (last_error : option exn)
    (w : World) (result : pyval) :
  read_reply finish (endpoint w (sent w) request) = inr result ->
  loop (a :: rest) last_error w = (inr result, advance w 1 [EvPost request]).
Proof.
  intros H. simpl. unfold bind. now rewrite requests_post_run, H.
Qed.

Lemma replies_fail_tail (w : World) (e : exn) (errors : list exn) (evs : list Event) :
  replies_fail request finish w (e :: errors) ->
  replies_fail request finish (advance w 1 evs) errors.
Proof.
  intros H i x Hi. simpl. rewrite <- Nat.add_assoc. apply (H (S i)). exact Hi.
Qed.

Lemma retry_loop_failures (errors : list exn) :
  forall attempts rest last_error w,
    length attempts = length errors ->
    replies_fail request finish w errors ->
    Forall (fun e => printable (str_exn e) = true) errors ->
    loop (attempts ++ rest) last_error w =
    loop rest (last (map Some errors) last_error)
      (advance w (length errors)
         (failure_events MAX_RETRIES request attempts errors)).
Proof.
  induction errors as [|e errors IH];
    intros attempts rest last_error w Hlen Hfail Hprint.
  - destruct attempts; [|discriminate]. simpl. now rewrite advance_0.
  - destruct attempts as [|a attempts]; [discriminate|].
    injection Hlen as Hlen. inversion Hprint as [|? ? Hp Hps]; subst.
    change ((a :: attempts) ++ rest) with (a :: (attempts ++ rest)).
    rewrite (@retry_loop_fail_step a _ last_error w e).
    + rewrite (IH attempts rest (Some e) _ Hlen (replies_fail_tail _ Hfail) Hps).
      rewrite advance_advance.
      change (map Some (e :: errors)) with (Some e :: map Some errors).
      rewrite last_cons_default. cbn [failure_events].
      now rewrite <- app_assoc.
    + specialize (Hfail 0 e eq_refl). now rewrite Nat.add_0_r in Hfail.
    + exact Hp.
Qed.

(** Nothing but the error of a [print] leaves the loop. *)
Lemma retry_loop_unless_print_fails (attempts : list nat) :
  forall last_error w,
    unless_print_fails (fun _ => True) (fst (loop attempts last_error w)).
Proof.
  induction attempts as [|a rest IH]; intros last_error w; [exact I|].
  destruct (read_reply finish (endpoint w (sent w) request)) as [e|r] eqn:E.
  - destruct (printable (str_exn e)) eqn:Hp.
    + erewrite retry_loop_fail_step by eassumption. apply IH.
    + erewrite retry_loop_fail_abort by eassumption. simpl.
      eexists. split; [reflexivity|]. now rewrite warning_printable.
  - erewrite retry_loop_ok_step by exact E. exact I.
Qed.

(** A sleep follows every failed attempt but the one numbered
    [MAX_RETRIES]: over the whole range the sleeps stand between the
    attempts. *)
Lemma failure_events_between (n : nat) :
  forall a errors,
    length errors = n -> a + n = MAX_RETRIES + 1 ->
    failure_events MAX_RETRIES request (seq a n) errors =
    between [EvSleep 1]
      (map (attempt_block MAX_RETRIES request) (combine (seq a n) errors)).
Proof.
  induction n as [|n IH]; intros a errors Hlen Ha.
  - destruct errors; [reflexivity|discriminate].
  - destruct errors as [|e errors]; [discriminate|]. injection Hlen as Hlen.
    simpl seq. simpl combine. simpl map. simpl failure_events.
    rewrite (IH (S a) errors Hlen) by lia.
    destruct n as [|n].
    + destruct errors; [|discriminate]. simpl.
      replace (a <? MAX_RETRIES) with false
        by (symmetry; apply Nat.ltb_ge; lia).
      reflexivity.
    + destruct errors as [|e' errors]; [discriminate|].
      replace (a <? MAX_RETRIES) with true
        by (symmetry; apply Nat.ltb_lt; lia).
      reflexivity.
Qed.



(** Every attempt fails and every warning is written: [MAX_RETRIES]
    requests, a sleep between two attempts, and the marker with the last
    error is returned. *)
Lemma with_retries_exhausted (errors : list exn) (w : World) :
  length errors = MAX_RETRIES ->
  replies_fail request finish w errors ->
  Forall (fun e => printable (str_exn e) = true) errors ->
  with_retries MAX_RETRIES request finish marker w =
  (inr (PStr (marker ++ str_opt_exn (last (map Some errors) None))),
   advance w MAX_RETRIES
     (between [EvSleep 1]
        (map (attempt_block MAX_RETRIES request)
           (combine (seq 1 MAX_RETRIES) errors)))).
Proof.
  intros Hlen Hfail Hprint. unfold with_retries, attempt_range.
  rewrite <- (app_nil_r (seq 1 MAX_RETRIES)).
  rewrite (@retry_loop_failures errors _ [] None w); auto.
  - rewrite app_nil_r. simpl. unfold ret.
    rewrite failure_events_between by lia.
    now rewrite Hlen.
  - now rewrite length_seq.
Qed.

(** The first attempt that succeeds ends the loop with its result. *)
Lemma with_retries_first_success (errors : list exn) (result : pyval) (w : World) :
  length errors < MAX_RETRIES ->
  replies_fail request finish w errors ->
  Forall (fun e => printable (str_exn e) = true) errors ->
  read_reply finish (endpoint w (sent w + length errors) request) = inr result ->
  with_retries MAX_RETRIES request finish marker w =
  (inr result,
   advance w (S (length errors))
     (failure_events MAX_RETRIES request (seq 1 (length errors)) errors
        ++ [EvPost request])).
Proof.
  intros Hlen Hfail Hprint Hok. unfold with_retries, attempt_range.
  replace MAX_RETRIES
    with (length errors + S (MAX_RETRIES - S (length errors))) at 2 by lia.
  rewrite seq_app. simpl seq.
  rewrite (@retry_loop_failures errors _ _ None w); auto.
  - rewrite (@retry_loop_ok_step _ _ _ _ result); [|exact Hok].
    rewrite advance_advance. now rewrite Nat.add_1_r.
  - now rewrite length_seq.
Qed.
End ClientFacts.

(** ** Lists and dictionaries *)

Lemma slice_from_0 {A} (l : list A) (n : nat) :
  slice l 0 (Z.of_nat n) = firstn n l.
Proof.
  unfold slice, clamp_index. change (0 <? 0)%Z with false. cbv iota.
  destruct (Z.ltb_spec (Z.of_nat n) 0); [lia|].
  replace (Z.min 0 (Z.of_nat (length l))) with 0%Z by lia.
  rewrite Z.sub_0_r. change (Z.to_nat 0) with 0. simpl skipn.
  destruct (Nat.le_gt_cases n (length l)).
  - rewrite Z.min_l by lia. now rewrite Nat2Z.id.
  - rewrite Z.min_r by lia. rewrite Nat2Z.id.
    rewrite !firstn_all2 by lia. reflexivity.
Qed.

Lemma dict_set_keys {V} (d : list (str * V)) (k k' : str) (v : V) :
  In k (dict_keys (dict_set d k' v)) -> k = k' \/ In k (dict_keys d).
Proof.
  induction d as [|[k0 v0] d IH]; simpl.
  - intros [<-|[]]. now left.
  - destruct (str_eqb k0 k'); simpl; intuition.
Qed.

Lemma fold_dict_set_keys (pairs : list (str * str)) :
  forall d k,
    In k (dict_keys (fold_left (fun d ms => dict_set d (snd ms) (fst ms)) pairs d)) ->
    In k (dict_keys d) \/ exists m, In (m, k) pairs.
Proof.
  induction pairs as [|[m s] pairs IH]; intros d k H; simpl in *; [now left|].
  apply IH in H. destruct H as [H|[m' H]].
  - apply dict_set_keys in H. destruct H as [->|H]; [right|now left]. eauto.
  - right. eauto.
Qed.

Lemma in_combine_map {A B C} (f : A -> B) (g : A -> C) (l : list A) (b : B) (c : C) :
  In (b, c) (combine (map f l) (map g l)) -> exists a, In a l /\ b = f a /\ c = g a.
Proof.
  induction l as [|a l IH]; simpl; [tauto|].
  intros [[= <- <-]|H]; [eauto|].
  destruct (IH H) as (a' & Ha & E). eauto.
Qed.

Lemma ok_response_succeeds (content : pyval) :
  succeeds_with (ok_response content) content.
Proof. unfold ok_response. repeat eexists. Qed.

(** ** [topic.py]: the catalog *)

(** C8: on the rows (Billing, Refund), (Billing, Charge), (Support, Refund)
    [load_categories] builds a mapping of size exactly 2 in which Refund
    maps to Support, the last write for the repeated key, and Charge maps
    to Billing. *)
Theorem C8_load_categories_last_write_wins :
  let rows :=
    [ (Text (lit "Billing"), Text (lit "Refund"));
      (Text (lit "Billing"), Text (lit "Charge"));
      (Text (lit "Support"), Text (lit "Refund")) ] in
  let sub_to_main := snd (Topic.load_categories rows) in
  length sub_to_main = 2
  /\ dict_get sub_to_main (lit "Refund") = Some (lit "Support")
  /\ dict_get sub_to_main (lit "Charge") = Some (lit "Billing")
  /\ fst (Topic.load_categories rows) = [lit "Refund"; lit "Charge"].
Proof. vm_compute. repeat split. Qed.

(** C5, the claim as stated fails: a subcategory cell that holds only white
    space becomes the empty key. *)
Lemma C5_blank_cell_gives_empty_key :
  Topic.load_categories [(Text (lit "Billing"), Text (lit " "))]
  = ([[]], [([], lit "Billing")]).
Proof. reflexivity. Qed.

(** C5, amended: every subcategory key of the mapping built by
    [load_categories] is a trimmed string, the [strip] of the text of a
    subcategory cell of some row, and it is empty exactly when that text
    holds nothing but white space. *)
Theorem C5_subcategory_keys_trimmed (rows : list (cell * cell)) (k : str) :
  In k (dict_keys (snd (Topic.load_categories rows))) ->
  trimmed k
  /\ exists main sub,
       In (main, sub) rows
       /\ k = strip (cell_str sub)
       /\ (k = [] <-> forallb is_space (cell_str sub) = true).
Proof.
  unfold Topic.load_categories. simpl snd. intros H.
  apply fold_dict_set_keys in H. destruct H as [[]|[m H]].
  apply in_combine_map in H. destruct H as ([main sub] & Hin & -> & ->).
  simpl. split; [apply strip_trimmed|].
  exists main, sub. repeat split; auto; apply strip_nil_iff.
Qed.

Lemma C5_subcategory_keys_trimmed_witness :
  trimmed (lit "Refund")
  /\ exists main sub,
       In (main, sub)
          [ (Text (lit "Billing"), Text (lit " Refund "));
            (Text (lit "Billing"), Text (lit "Charge")) ]
       /\ lit "Refund" = strip (cell_str sub)
       /\ (lit "Refund" = [] <-> forallb is_space (cell_str sub) = true).
Proof.
  apply (@C5_subcategory_keys_trimmed
           [ (Text (lit "Billing"), Text (lit " Refund "));
             (Text (lit "Billing"), Text (lit "Charge")) ]
           (lit "Refund")).
  vm_compute. left. reflexivity.
Defined.

(** ** [topic.py]: the classification of a summary *)

Lemma Forall_firstn {A} (P : A -> Prop) (n : nat) (l : list A) :
  Forall P l -> Forall P (firstn n l).
Proof.
  revert l. induction n as [|n IH]; intros l H; simpl; [constructor|].
  destruct H; constructor; auto.
Qed.

Lemma Forall_repeat {A} (P : A -> Prop) (x : A) (n : nat) :
  P x -> Forall P (repeat x n).
Proof. intros H. induction n; simpl; constructor; auto. Qed.

Lemma exactly_three_length (l : list str) : length (Topic.exactly_three l) = 3.
Proof.
  unfold Topic.exactly_three.
  destruct (Nat.ltb_spec 3 (length l)).
  - change 3%Z with (Z.of_nat 3). rewrite slice_from_0, length_firstn. lia.
  - destruct (Nat.ltb_spec (length l) 3); [|lia].
    rewrite length_app, repeat_length. lia.
Qed.

Lemma exactly_three_trimmed (l : list str) :
  Forall trimmed l -> Forall trimmed (Topic.exactly_three l).
Proof.
  intros H. unfold Topic.exactly_three.
  destruct (3 <? length l).
  - change 3%Z with (Z.of_nat 3). rewrite slice_from_0. now apply Forall_firstn.
  - destruct (length l <? 3); [|exact H].
    apply Forall_app. split; [exact H|]. apply Forall_repeat, trimmed_nil.
Qed.

Section TopicFacts.
Context {RT : Runtime}.

Lemma stripped_names_trimmed (elements : list pyval) :
  Forall trimmed (Topic.stripped_names elements).
Proof.
  unfold Topic.stripped_names. apply Forall_forall. intros x Hx.
  apply in_map_iff in Hx. destruct Hx as (v & <- & _). apply strip_trimmed.
Qed.

(** What the [try] body returns is three trimmed names or placeholders. *)
Lemma parse_subcategories_three (raw_content : pyval) (l : list str) :
  Topic.parse_subcategories raw_content = inr l ->
  length l = 3 /\ Forall trimmed l.
Proof.
  unfold Topic.parse_subcategories, bind_exn. intros H.
  repeat break_hyp; try discriminate. injection H as <-.
  split; [apply exactly_three_length|].
  apply exactly_three_trimmed, stripped_names_trimmed.
Qed.

Lemma extract_classification_ok (raw_content : pyval) (l : list str) (w : World) :
  Topic.parse_subcategories raw_content = inr l ->
  Topic.extract_classification raw_content w = (inr l, w).
Proof. intros H. unfold Topic.extract_classification. now rewrite H. Qed.

(** The [try] body raised and the two lines of the handler are written. *)
Lemma extract_classification_failed (raw_content : pyval) (e : exn) (w : World) :
  Topic.parse_subcategories raw_content = inl e ->
  printable (str_exn e) = true ->
  printable (py_str raw_content) = true ->
  Topic.extract_classification raw_content w =
  (inr [[]; []; []], advance w 0 (parse_failure_lines e raw_content)).
Proof.
  intros H H1 H2. unfold Topic.extract_classification. rewrite H.
  unfold bind.
  rewrite print_run by now rewrite printable_app, H1.
  rewrite print_run by now rewrite printable_app, H2.
  rewrite advance_advance. reflexivity.
Qed.

(** The [try] body raised and a line of the handler cannot be written:
    the error of [print] leaves [classify_summary]. *)
Lemma extract_classification_aborts (raw_content : pyval) (e : exn) (w : World) :
  Topic.parse_subcategories raw_content = inl e ->
  printable (str_exn e) && printable (py_str raw_content) = false ->
  exists line evs,
    Topic.extract_classification raw_content w
    = (inl (UnicodeEncodeError line), advance w 0 evs)
    /\ printable line = false
    /\ count_posts evs = 0.
Proof.
  intros H Hp. unfold Topic.extract_classification. rewrite H. unfold bind.
  destruct (printable (str_exn e)) eqn:H1.
  - rewrite print_run by now rewrite printable_app, H1.
    simpl in Hp.
    rewrite print_fails by now rewrite printable_app, Hp.
    eexists _, [_]. split; [reflexivity|]. split; [|reflexivity].
    now rewrite printable_app, Hp.
  - rewrite print_fails by now rewrite printable_app, H1.
    eexists _, []. rewrite advance_0. split; [reflexivity|].
    split; [|reflexivity]. now rewrite printable_app, H1.
Qed.

Lemma extract_classification_three (raw_content : pyval) (w : World) :
  unless_print_fails (fun slots => length slots = 3 /\ Forall trimmed slots)
    (fst (Topic.extract_classification raw_content w)).
Proof.
  destruct (Topic.parse_subcategories raw_content) as [e|l] eqn:E.
  - destruct (printable (str_exn e) && printable (py_str raw_content)) eqn:Hp.
    + apply andb_true_iff in Hp. destruct Hp as [H1 H2].
      rewrite (extract_classification_failed _ w E H1 H2). simpl.
      split; [reflexivity|]. repeat constructor.
    + destruct (extract_classification_aborts _ w E Hp) as (line & evs & -> & H & _).
      simpl. eauto.
  - rewrite (extract_classification_ok _ w E). simpl.
    now apply parse_subcategories_three in E.
Qed.

(** A summary is blank when it is empty or holds only white space. *)
Lemma is_blank_iff (summary_text : str) :
  Topic.is_blank summary_text = true <-> forallb is_space summary_text = true.
Proof.
  unfold Topic.is_blank. rewrite orb_true_iff, str_eqb_eq, strip_nil_iff.
  destruct summary_text; simpl; intuition discriminate.
Qed.

(** A request that succeeds at once. *)
Lemma call_llm_first_try (messages : list Message) (content : pyval) (w : World) :
  succeeds_with (endpoint w (sent w) (Topic.llm_request messages)) content ->
  Topic.call_llm messages w =
  (inr content, advance w 1 [EvPost (Topic.llm_request messages)]).
Proof.
  intros H. unfold Topic.call_llm.
  rewrite (@with_retries_first_success _ _ _ _ _ [] content w).
  - reflexivity.
  - unfold Topic.MAX_RETRIES. simpl. lia.
  - intros i e Hi. destruct i; discriminate.
  - constructor.
  - simpl. rewrite Nat.add_0_r. now rewrite (read_reply_success _ H).
Qed.

(** A text with a brace missing is left whole, and is no JSON object. *)
Lemma brace_absent_fails (text : str) :
  ~ In 123%N text \/ ~ In 125%N text ->
  exists e, Topic.parse_subcategories (PStr text) = inl e.
Proof.
  intros H. unfold Topic.parse_subcategories. cbn [Topic.json_span bind_exn].
  assert (Hspan : (negb (find 123 (strip text) =? -1)
                   && negb (rfind 125 (strip text) =? -1))%Z = false).
  { destruct H as [H|H].
    - rewrite find_absent; [reflexivity|]. intros Hin. apply H.
      now apply strip_incl.
    - rewrite rfind_absent; [apply andb_false_r|]. intros Hin. apply H.
      now apply strip_incl. }
  rewrite Hspan. cbn [bind_exn].
  destruct (json_loads (strip text)) as [e|v] eqn:E; cbn [bind_exn]; [eauto|].
  destruct v; cbn [Topic.get_subcategories bind_exn]; eauto.
  apply json_loads_dict in E. destruct E as [H1 H2].
  exfalso. destruct H as [H|H]; apply H; now apply strip_incl.
Qed.

(** C1, amended: for a blank summary (empty or white space only)
    [classify_summary] returns the empty list and leaves the world as it
    was, so the endpoint is not called; for any other summary what it
    returns is exactly 3 slots, each a trimmed string (a name or the empty
    placeholder).  In both cases the three slots [main] takes from the
    result are trimmed strings.  It returns unless a [print] on the way
    raises, and always does when standard output encodes every
    character. *)
Theorem C1_classify_summary_slots (summary_text : str) (subcategories : list str)
    (w : World) :
  let out := Topic.classify_summary summary_text subcategories w in
  (if Topic.is_blank summary_text
   then out = (inr [], w)
   else unless_print_fails
          (fun slots => length slots = 3 /\ Forall trimmed slots) (fst out))
  /\ unless_print_fails
       (fun slots =>
          let '(s1, s2, s3) := Topic.three_slots slots in
          trimmed s1 /\ trimmed s2 /\ trimmed s3)
       (fst out)
  /\ (prints_everything -> exists slots, fst out = inr slots)
  /\ (Topic.is_blank summary_text = true <-> forallb is_space summary_text = true).
Proof.
  cbv zeta.
  assert (Hshape :
    unless_print_fails
      (fun slots => slots = [] \/ length slots = 3 /\ Forall trimmed slots)
      (fst (Topic.classify_summary summary_text subcategories w))
    /\ (if Topic.is_blank summary_text
        then Topic.classify_summary summary_text subcategories w = (inr [], w)
        else unless_print_fails
               (fun slots => length slots = 3 /\ Forall trimmed slots)
               (fst (Topic.classify_summary summary_text subcategories w)))).
  { unfold Topic.classify_summary.
    destruct (Topic.is_blank summary_text); [split; [now left|reflexivity]|].
    assert (H : unless_print_fails
                  (fun slots => length slots = 3 /\ Forall trimmed slots)
                  (fst (bind (Topic.call_llm
                                (Topic.build_classification_messages summary_text
                                   subcategories))
                          (fun raw_content => Topic.extract_classification raw_content)
                          w))).
    { eapply bind_unless_print_fails.
      - apply retry_loop_unless_print_fails.
      - intros raw w' _. apply extract_classification_three. }
    split; [|exact H].
    eapply unless_print_fails_weaken; [|exact H]. now right. }
  destruct Hshape as [Hany Hblank].
  split; [exact Hblank|]. split; [|split; [|apply is_blank_iff]].
  - eapply unless_print_fails_weaken; [|exact Hany].
    intros slots [-> | [Hlen Htrim]]; [simpl; repeat split|].
    destruct slots as [|s1 [|s2 [|s3 [|s4 l]]]]; try discriminate.
    simpl. inversion Htrim as [|? ? T1 Ht1]. inversion Ht1 as [|? ? T2 Ht2].
    inversion Ht2 as [|? ? T3 _]. auto.
  - intros Hall.
    destruct (unless_print_fails_returns _ _ Hall Hany) as (slots & E & _).
    eauto.
Qed.

(** C4, amended: when the parsing steps raise, and standard output can
    encode the text of their error and the raw text, [extract_classification]
    returns three empty placeholders, prints the failure and the raw text,
    and raises nothing; the parsing steps raise for every text with an
    opening or a closing brace missing, when the span is no valid JSON, and
    when its root is no object.  A span that decodes to an object without
    the subcategories field gives three empty placeholders too, with
    nothing printed. *)
Theorem C4_unparsable_text (raw_content : pyval) (w : World) :
  (forall e,
     Topic.parse_subcategories raw_content = inl e ->
     printable (str_exn e) = true ->
     printable (py_str raw_content) = true ->
     Topic.extract_classification raw_content w =
     (inr [[]; []; []], advance w 0 (parse_failure_lines e raw_content)))
  /\ (forall text,
        raw_content = PStr text ->
        ~ In 123%N text \/ ~ In 125%N text ->
        exists e, Topic.parse_subcategories raw_content = inl e)
  /\ (forall span e,
        Topic.json_span raw_content = inr span ->
        json_loads span = inl e ->
        Topic.parse_subcategories raw_content = inl e)
  /\ (forall span v,
        Topic.json_span raw_content = inr span ->
        json_loads span = inr v ->
        (forall d, v <> PDict d) ->
        Topic.parse_subcategories raw_content = inl (no_attribute v (lit "get")))
  /\ (forall span d,
        Topic.json_span raw_content = inr span ->
        json_loads span = inr (PDict d) ->
        dict_get d (lit "subcategories") = None ->
        Topic.extract_classification raw_content w = (inr [[]; []; []], w)).
Proof.
  repeat split.
  - intros e H H1 H2. now apply extract_classification_failed.
  - intros text -> H. now apply brace_absent_fails.
  - intros span e H1 H2. unfold Topic.parse_subcategories.
    rewrite H1. cbn [bind_exn]. now rewrite H2.
  - intros span v H1 H2 Hv. unfold Topic.parse_subcategories.
    rewrite H1. cbn [bind_exn]. rewrite H2. cbn [bind_exn].
    destruct v; try reflexivity. now destruct (Hv d).
  - intros span d H1 H2 H3. apply extract_classification_ok.
    unfold Topic.parse_subcategories.
    rewrite H1. cbn [bind_exn]. rewrite H2.
    cbn [bind_exn Topic.get_subcategories]. now rewrite H3.
Qed.

End TopicFacts.

(** C1, the claim as stated fails: on a summary of white space
    [classify_summary] returns no slot at all. *)
Lemma C1_blank_summary_gives_no_slot :
  @Topic.classify_summary plain_runtime (lit "   ") [lit "Refund"]
    (replying (ok_response (PStr (jlit "{'subcategories':['Refund']}"))))
  = (inr [], replying (ok_response (PStr (jlit "{'subcategories':['Refund']}"))))
  /\ fst (@Topic.classify_summary plain_runtime (lit "   ") [lit "Refund"]
            (replying (ok_response (PStr (jlit "{'subcategories':['Refund']}")))))
     <> inr [[]; []; []].
Proof. split; [reflexivity|discriminate]. Qed.

(** C4, the claim as stated fails: the text of an empty object holds no
    subcategories list, and it gives the three placeholders with nothing
    printed (the world is left as it was); and on the text of a lone
    surrogate, which is no JSON, the [print] of the raw text raises: no
    placeholder is returned. *)
Lemma C4_diagnostic_missing_or_raising :
  json_loads (lit "{}") = inr (PDict [])
  /\ dict_get (@nil (str * pyval)) (lit "subcategories") = None
  /\ @Topic.extract_classification plain_runtime (PStr (lit "{}"))
       (replying (inl (Raised [] [])))
     = (inr [[]; []; []], replying (inl (Raised [] [])))
  /\ @Topic.parse_subcategories plain_runtime (PStr [55296%N])
     = inl (JSONDecodeError [55296%N])
  /\ fst (@Topic.extract_classification plain_runtime (PStr [55296%N])
            (replying (inl (Raised [] []))))
     = inl (UnicodeEncodeError (lit "Raw content was: " ++ [55296%N])).
Proof. repeat split. Qed.

Lemma C4_unparsable_text_witness :
  @Topic.extract_classification plain_runtime (PStr (lit "not json"))
    (replying (inl (Raised [] [])))
  = (inr [[]; []; []],
     advance (replying (inl (Raised [] []))) 0
       (@parse_failure_lines plain_runtime (JSONDecodeError (lit "not json"))
          (PStr (lit "not json")))).
Proof.
  apply (proj1 (@C4_unparsable_text plain_runtime (PStr (lit "not json"))
                  (replying (inl (Raised [] []))))).
  - vm_compute. reflexivity.
  - reflexivity.
  - reflexivity.
Defined.

Section TopicRuns.
Context {RT : Runtime}.

Lemma classify_summary_first_try (summary_text : str) (subcategories : list str)
    (content : pyval) (w : World) :
  Topic.is_blank summary_text = false ->
  succeeds_with
    (endpoint w (sent w)
       (Topic.llm_request
          (Topic.build_classification_messages summary_text subcategories)))
    content ->
  Topic.classify_summary summary_text subcategories w =
  Topic.extract_classification content
    (advance w 1
       [EvPost (Topic.llm_request
                  (Topic.build_classification_messages summary_text subcategories))]).
Proof.
  intros Hblank Hok. unfold Topic.classify_summary. rewrite Hblank.
  unfold bind. erewrite call_llm_first_try by exact Hok. reflexivity.
Qed.

Lemma parse_duplicates :
  Topic.parse_subcategories (PStr (jlit "{'subcategories':['A','A','B','C']}"))
  = inr [lit "A"; lit "A"; lit "B"].
Proof. vm_compute. reflexivity. Qed.

Lemma parse_with_preamble :
  Topic.parse_subcategories
    (PStr (jlit "preamble {'subcategories':['A','B']} trailing"))
  = inr [lit "A"; lit "B"; []].
Proof. vm_compute. reflexivity. Qed.

(** C6: on the assistant text [{"subcategories":["A","A","B","C"]}] the
    extraction returns exactly A, A, B: the first three elements in their
    order, with the repeated A kept; and so does [classify_summary] when
    the endpoint answers a summary that is not blank with this text. *)
Theorem C6_truncated_without_deduplication (w : World) :
  let text := PStr (jlit "{'subcategories':['A','A','B','C']}") in
  Topic.extract_classification text w = (inr [lit "A"; lit "A"; lit "B"], w)
  /\ (forall summary_text subcategories,
        Topic.is_blank summary_text = false ->
        succeeds_with
          (endpoint w (sent w)
             (Topic.llm_request
                (Topic.build_classification_messages summary_text subcategories)))
          text ->
        fst (Topic.classify_summary summary_text subcategories w)
        = inr [lit "A"; lit "A"; lit "B"]).
Proof.
  cbv zeta. split.
  - apply extract_classification_ok, parse_duplicates.
  - intros summary_text subcategories Hblank Hok.
    erewrite classify_summary_first_try by eassumption.
    erewrite extract_classification_ok by apply parse_duplicates.
    reflexivity.
Qed.

(** C7: on the assistant text [preamble {"subcategories":["A","B"]} trailing]
    the extraction returns A, B and one empty placeholder; with the catalog
    that maps A to X and B to Y the three slots resolve to X, Y and the
    empty string; an empty label and a label the catalog does not hold
    resolve to the empty string; and the row [main] builds holds these six
    values. *)
Theorem C7_preamble_and_catalog (w : World) :
  let text := PStr (jlit "preamble {'subcategories':['A','B']} trailing") in
  let catalog :=
    snd (Topic.load_categories
           [ (Text (lit "X"), Text (lit "A")); (Text (lit "Y"), Text (lit "B")) ]) in
  Topic.extract_classification text w = (inr [lit "A"; lit "B"; []], w)
  /\ catalog = [(lit "A", lit "X"); (lit "B", lit "Y")]
  /\ map (Topic.main_category catalog) [lit "A"; lit "B"; []]
     = [lit "X"; lit "Y"; []]
  /\ (forall sub_to_main, Topic.main_category sub_to_main [] = [])
  /\ (forall sub_to_main s,
        dict_get sub_to_main s = None -> Topic.main_category sub_to_main s = [])
  /\ (forall idx summary_text subcategories,
        Topic.is_blank summary_text = false ->
        succeeds_with
          (endpoint w (sent w)
             (Topic.llm_request
                (Topic.build_classification_messages summary_text subcategories)))
          text ->
        fst (Topic.classify_row subcategories catalog idx (Text summary_text) w)
        = inr {| Topic.sub_category_1 := lit "A"; Topic.main_category_1 := lit "X";
                 Topic.sub_category_2 := lit "B"; Topic.main_category_2 := lit "Y";
                 Topic.sub_category_3 := []; Topic.main_category_3 := [] |}).
Proof.
  cbv zeta.
  split; [apply extract_classification_ok, parse_with_preamble|].
  split; [reflexivity|]. split; [reflexivity|]. split; [reflexivity|].
  split.
  - intros sub_to_main s H. unfold Topic.main_category. rewrite H.
    now destruct (truthy s).
  - intros idx summary_text subcategories Hblank Hok.
    unfold Topic.classify_row. cbn [isna cell_str]. unfold bind.
    erewrite classify_summary_first_try by eassumption.
    erewrite extract_classification_ok by apply parse_with_preamble.
    cbn [Topic.three_slots].
    destruct (progress_run idx
                (advance w 1
                   [EvPost (Topic.llm_request
                              (Topic.build_classification_messages summary_text
                                 subcategories))])) as [lines ->].
    reflexivity.
Qed.

End TopicRuns.

Lemma C6_truncated_without_deduplication_witness :
  fst (@Topic.classify_summary plain_runtime (lit "refund asked") [lit "A"; lit "B"]
         (replying (ok_response (PStr (jlit "{'subcategories':['A','A','B','C']}")))))
  = inr [lit "A"; lit "A"; lit "B"].
Proof.
  apply (proj2 (@C6_truncated_without_deduplication plain_runtime
                  (replying
                     (ok_response (PStr (jlit "{'subcategories':['A','A','B','C']}")))))).
  - reflexivity.
  - apply ok_response_succeeds.
Defined.

Lemma C7_preamble_and_catalog_witness :
  fst (@Topic.classify_row plain_runtime [lit "A"; lit "B"]
         (snd (Topic.load_categories
                 [ (Text (lit "X"), Text (lit "A")); (Text (lit "Y"), Text (lit "B")) ]))
         0 (Text (lit "refund asked"))
         (replying
            (ok_response
               (PStr (jlit "preamble {'subcategories':['A','B']} trailing")))))
  = inr {| Topic.sub_category_1 := lit "A"; Topic.main_category_1 := lit "X";
           Topic.sub_category_2 := lit "B"; Topic.main_category_2 := lit "Y";
           Topic.sub_category_3 := []; Topic.main_category_3 := [] |}.
Proof.
  pose proof (@C7_preamble_and_catalog plain_runtime
                (replying
                   (ok_response
                      (PStr (jlit "preamble {'subcategories':['A','B']} trailing")))))
    as H.
  cbv zeta in H. destruct H as (_ & _ & _ & _ & _ & H).
  apply H; [reflexivity|apply ok_response_succeeds].
Defined.

(** ** The client: what is returned, and after how many attempts *)

Section ClientClaims.
Context {RT : Runtime}.








End ClientClaims.

Lemma always_failing (request : Request) (finish : pyval -> exn + pyval) (n : nat) :
  replies_fail request finish (replying (inl connection_refused))
    (repeat connection_refused n).
Proof.
  intros i e H. simpl.
  apply nth_error_In, repeat_spec in H. now subst.
Qed.




(** ** [summarize.py] and [virgullu.py]: the rows *)

Lemma first_six_of_parts (row_text : str) :
  Virgullu.first_six_of row_text =
  map strip (firstn 6 (split 44 row_text))
    ++ repeat [] (6 - length (split 44 row_text)).
Proof.
  unfold Virgullu.first_six_of. rewrite length_map.
  change 6%Z with (Z.of_nat 6). rewrite slice_from_0.
  destruct (Nat.ltb_spec (length (split 44 row_text)) 6).
  - rewrite firstn_all2 by (rewrite length_app, length_map, repeat_length; lia).
    now rewrite (firstn_all2 (n := 6) (split 44 row_text)) by lia.
  - replace (6 - length (split 44 row_text)) with 0 by lia.
    simpl repeat. now rewrite app_nil_r, firstn_map.
Qed.


Lemma first_six_of_nth (row_text : str) (i : nat) :
  i < 6 ->
  nth i (Virgullu.first_six_of row_text) [] = strip (nth i (split 44 row_text) []).
Proof.
  intros Hi. rewrite first_six_of_parts.
  destruct (Nat.lt_ge_cases i (length (split 44 row_text))) as [H|H].
  - rewrite app_nth1 by (rewrite length_map, length_firstn; lia).
    change (@nil N) with (strip []) at 1. rewrite map_nth, nth_firstn.
    now replace (i <? 6) with true by (symmetry; apply Nat.ltb_lt; lia).
  - rewrite (nth_overflow (split 44 row_text)) by lia.
    rewrite app_nth2 by (rewrite length_map, length_firstn; lia).
    now rewrite nth_repeat.
Qed.



Section RowClaims.
Context {RT : Runtime}.

(** C9: for a transcript that is missing or trims to the empty string the
    row's summary is the empty string and no request is sent: in
    [summarize.py] the transcript is the sixth cell, in [virgullu.py] the
    sixth comma-separated part of the row. *)
Theorem C9_blank_transcript_skips_client (idx : nat) (w : World) :
  (forall value,
     isna value = true \/ strip (cell_str value) = [] ->
     let out := Summarize.summarize_row idx value w in
     fst out = inr (PStr [])
     /\ sent (snd out) = sent w
     /\ count_posts (trace (snd out)) = count_posts (trace w))
  /\ (forall value,
        strip (nth 5 (split 44 (if isna value then [] else cell_str value)) []) = [] ->
        let out := Virgullu.structure_row idx value w in
        fst out
        = inr (Virgullu.first_six_of (if isna value then [] else cell_str value),
               PStr [])
        /\ sent (snd out) = sent w
        /\ count_posts (trace (snd out)) = count_posts (trace w)).
Proof.
  split; intros value H; cbv zeta.
  - unfold Summarize.summarize_row. cbv zeta.
    replace (if isna value then [] else strip (cell_str value)) with (@nil N)
      by (destruct H as [-> | ->]; [reflexivity|now destruct (isna value)]).
    cbn [truthy]. unfold bind, ret.
    destruct (progress_run idx w) as [lines ->]. simpl.
    rewrite count_posts_app, count_posts_prints.
    repeat split; lia.
  - unfold Virgullu.structure_row. cbv zeta.
    rewrite first_six_of_nth by lia.
    match goal with
    | |- context [truthy ?t] => replace t with (@nil N) by (symmetry; exact H)
    end.
    cbn [truthy]. unfold bind, ret.
    destruct (progress_run idx w) as [lines ->]. simpl.
    rewrite count_posts_app, count_posts_prints.
    repeat split; lia.
Qed.


End RowClaims.

Lemma C9_blank_transcript_skips_client_witness :
  fst (@Summarize.summarize_row plain_runtime 0 (Text (lit "   "))
         (replying (ok_response (PStr (lit "a summary")))))
  = inr (PStr [])
  /\ sent (snd (@Summarize.summarize_row plain_runtime 0 (Text (lit "   "))
                  (replying (ok_response (PStr (lit "a summary")))))) = 0.
Proof.
  destruct (proj1 (@C9_blank_transcript_skips_client plain_runtime 0
                     (replying (ok_response (PStr (lit "a summary")))))
              (Text (lit "   ")) (or_intror eq_refl)) as (H1 & H2 & _).
  split; [exact H1|exact H2].
Defined.

(** * Further properties *)

(** ** The client, whatever the endpoint answers *)

Section ClientAny.
Context {RT : Runtime}.
Variable MAX_RETRIES : nat.
Variable request : Request.
Variable finish : pyval -> exn + pyval.
Variable marker : str.

#[local] Abbreviation run_loop := (retry_loop MAX_RETRIES request finish marker).

Lemma retry_loop_discipline (n : nat) :
  forall a last_error w,
    1 <= n -> a + n = MAX_RETRIES + 1 ->
    exists evs,
      snd (run_loop (seq a n) last_error w) = advance w (count_posts evs) evs
      /\ hd_error evs = Some (EvPost request)
      /\ 1 <= count_posts evs <= n
      /\ count_sleeps evs = count_posts evs - 1
      /\ sleeps_precede_posts evs = true
      /\ Forall (fun e => is_post e = true -> e = EvPost request) evs
      /\ Forall (fun e => is_sleep e = true -> e = EvSleep 1) evs.
Proof.
  induction n as [|n IH]; intros a last_error w Hn Ha; [lia|].
  simpl seq.
  destruct (read_reply finish (endpoint w (sent w) request)) as [e|r] eqn:E.
  - destruct (printable (str_exn e)) eqn:Hwritten;
      [|erewrite retry_loop_fail_abort by eassumption;
        exists [EvPost request]; simpl;
        repeat split; auto; try lia; repeat constructor; discriminate].
    erewrite retry_loop_fail_step by eassumption.
    destruct n as [|n].
    + replace (a <? MAX_RETRIES) with false by (symmetry; apply Nat.ltb_ge; lia).
      exists (attempt_block MAX_RETRIES request (a, e)).
      unfold attempt_block. simpl.
      repeat split; auto; repeat constructor; simpl; congruence.
    + replace (a <? MAX_RETRIES) with true by (symmetry; apply Nat.ltb_lt; lia).
      destruct (IH (S a) (Some e)
                  (advance w 1 (attempt_block MAX_RETRIES request (a, e) ++ [EvSleep 1])))
        as (evs & Hw & Hhd & Hposts & Hsleeps & Hpre & Hp & Hs); [lia|lia|].
      exists ((attempt_block MAX_RETRIES request (a, e) ++ [EvSleep 1]) ++ evs).
      destruct evs as [|first evs]; [discriminate|]. injection Hhd as ->.
      rewrite Hw, advance_advance, !count_posts_app, !count_sleeps_app.
      change (count_posts (attempt_block MAX_RETRIES request (a, e))) with 1.
      change (count_posts [EvSleep 1]) with 0.
      change (count_sleeps (attempt_block MAX_RETRIES request (a, e))) with 0.
      change (count_sleeps [EvSleep 1]) with 1.
      repeat split; try reflexivity; try lia.
      * exact Hpre.
      * apply Forall_app. split; [|exact Hp].
        unfold attempt_block. repeat constructor; simpl; congruence.
      * apply Forall_app. split; [|exact Hs].
        unfold attempt_block. repeat constructor; simpl; congruence.
  - erewrite retry_loop_ok_step by exact E.
    exists [EvPost request]. simpl.
    repeat split; auto; try lia; repeat constructor; discriminate.
Qed.

Lemma with_retries_disciplined :
  1 <= MAX_RETRIES ->
  disciplined MAX_RETRIES request
    (with_retries MAX_RETRIES request finish marker).
Proof.
  intros H w. unfold with_retries, attempt_range.
  apply retry_loop_discipline; lia.
Qed.

(** What the loop returns is what [finish] made of a reply, or the marker
    followed by an error; what leaves it otherwise is the error of the
    [print] of a warning. *)
Lemma retry_loop_result (attempts : list nat) :
  forall last_error w,
    unless_print_fails
      (fun result =>
         (exists reply, read_reply finish reply = inr result)
         \/ (exists e, result = PStr (marker ++ str_opt_exn e)))
      (fst (run_loop attempts last_error w)).
Proof.
  induction attempts as [|a rest IH]; intros last_error w.
  - right. exists last_error. reflexivity.
  - destruct (read_reply finish (endpoint w (sent w) request)) as [e|r] eqn:E.
    + destruct (printable (str_exn e)) eqn:Hp.
      * erewrite retry_loop_fail_step by eassumption. apply IH.
      * erewrite retry_loop_fail_abort by eassumption. simpl.
        eexists. split; [reflexivity|]. now rewrite warning_printable.
    + erewrite retry_loop_ok_step by exact E. left. eauto.
Qed.

End ClientAny.

Lemma read_reply_strip (reply : exn + Response) (result : pyval) :
  read_reply method_strip reply = inr result ->
  exists s, result = PStr (strip s).
Proof.
  unfold read_reply, bind_exn. intros H.
  repeat break_hyp; try discriminate.
  match goal with
  | H : method_strip ?c = inr _ |- _ =>
      destruct c; try discriminate; injection H as <-; eauto
  end.
Qed.

Section ClientAnyClaims.
Context {RT : Runtime}.

(** X1: whatever the endpoint answers, [call_llm] and [summarize_with_llm]
    send the request at least once and at most [MAX_RETRIES] times, always
    the same request, and sleep 1 exactly once between two requests: one
    sleep less than requests, each followed at once by the next request. *)
Theorem client_keeps_retry_discipline :
  (forall messages,
     disciplined Topic.MAX_RETRIES (Topic.llm_request messages)
       (Topic.call_llm messages))
  /\ (forall transcript,
        disciplined Summarize.MAX_RETRIES (Summarize.summary_request transcript)
          (Summarize.summarize_with_llm transcript))
  /\ (forall transcript,
        disciplined Virgullu.MAX_RETRIES (Virgullu.summary_request transcript)
          (Virgullu.summarize_with_llm transcript)).
Proof.
  split; [|split]; intros; apply with_retries_disciplined;
    repeat constructor.
Qed.

(** X2: whatever the endpoint answers, what [summarize_with_llm] returns
    is a string: a trimmed one (the summary), or one that starts with the
    error marker.  It returns unless a warning cannot be printed: nothing
    but the error of that [print] leaves it, and nothing does when standard
    output encodes every character. *)
Theorem summary_is_trimmed_or_marked (transcript : str) (w : World) :
  let summary_or_marker (result : pyval) :=
    exists s,
      result = PStr s /\ (trimmed s \/ starts_with (lit "[SUMMARY_ERROR] ") s) in
  unless_print_fails summary_or_marker
    (fst (Summarize.summarize_with_llm transcript w))
  /\ unless_print_fails summary_or_marker
       (fst (Virgullu.summarize_with_llm transcript w))
  /\ (prints_everything ->
      (exists result,
         fst (Summarize.summarize_with_llm transcript w) = inr result
         /\ summary_or_marker result)
      /\ (exists result,
            fst (Virgullu.summarize_with_llm transcript w) = inr result
            /\ summary_or_marker result)).
Proof.
  cbv zeta.
  assert (Hshape : forall result,
    (exists reply, read_reply method_strip reply = inr result)
    \/ (exists e, result = PStr (lit "[SUMMARY_ERROR] " ++ str_opt_exn e)) ->
    exists s,
      result = PStr s /\ (trimmed s \/ starts_with (lit "[SUMMARY_ERROR] ") s)).
  { intros result [[reply H]|[e ->]].
    - apply read_reply_strip in H. destruct H as [s ->].
      exists (strip s). split; [reflexivity|left; apply strip_trimmed].
    - eexists. split; [reflexivity|right]. eexists. reflexivity. }
  assert (H1 := retry_loop_result Summarize.MAX_RETRIES
                  (Summarize.summary_request transcript) method_strip
                  (lit "[SUMMARY_ERROR] ") (attempt_range Summarize.MAX_RETRIES) None w).
  assert (H2 := retry_loop_result Virgullu.MAX_RETRIES
                  (Virgullu.summary_request transcript) method_strip
                  (lit "[SUMMARY_ERROR] ") (attempt_range Virgullu.MAX_RETRIES) None w).
  apply (unless_print_fails_weaken _ _ _ Hshape) in H1.
  apply (unless_print_fails_weaken _ _ _ Hshape) in H2.
  split; [exact H1|]. split; [exact H2|].
  intros Hall. split; now apply unless_print_fails_returns.
Qed.

End ClientAnyClaims.

(** ** The summarizer on a content that is no string *)

Section NonStringContent.
Context {RT : Runtime}.

Lemma strip_of_non_string (content : pyval) :
  (forall text, content <> PStr text) ->
  method_strip content = inl (no_attribute content (lit "strip")).
Proof.
  intros H. destruct content; try reflexivity. now destruct (H s).
Qed.

(** The text of an attribute error is ASCII but for the name. *)
Lemma no_attribute_printable (v : pyval) (name : str) :
  printable name = true -> printable (str_exn (no_attribute v name)) = true.
Proof.
  intros H. unfold no_attribute. cbn [str_exn].
  rewrite !printable_app, H. now destruct v.
Qed.

Lemma non_string_replies_fail (request : Request) (w : World) (content : pyval) (n : nat) :
  (forall text, content <> PStr text) ->
  (forall i, i < n -> succeeds_with (endpoint w (sent w + i) request) content) ->
  replies_fail request method_strip w
    (repeat (no_attribute content (lit "strip")) n).
Proof.
  intros Hc Hok i e Hi.
  assert (Hlt : i < n).
  { rewrite <- (repeat_length (no_attribute content (lit "strip")) n).
    apply nth_error_Some. congruence. }
  apply nth_error_In, repeat_spec in Hi. subst e.
  erewrite read_reply_success by (apply Hok; exact Hlt).
  now apply strip_of_non_string.
Qed.

(** X3: when the endpoint answers every attempt with a well-formed body
    whose content is no string (a null, a number, a list), [summarize_with_llm]
    counts each attempt as failed, asks [MAX_RETRIES] times, and returns the
    error marker with the attribute error of [strip]. *)
Theorem non_string_content_exhausts_summarizer (transcript : str) (w : World)
    (content : pyval) :
  (forall text, content <> PStr text) ->
  (forall i, i < Summarize.MAX_RETRIES ->
     succeeds_with
       (endpoint w (sent w + i) (Summarize.summary_request transcript)) content) ->
  fst (Summarize.summarize_with_llm transcript w)
  = inr (PStr (lit "[SUMMARY_ERROR] '" ++ type_name content
                 ++ lit "' object has no attribute 'strip'"))
  /\ sent (snd (Summarize.summarize_with_llm transcript w))
     = sent w + Summarize.MAX_RETRIES.
Proof.
  intros Hc Hok. unfold Summarize.summarize_with_llm.
  assert (Hfail :
    replies_fail (Summarize.summary_request transcript) method_strip w
      (repeat (no_attribute content (lit "strip")) Summarize.MAX_RETRIES))
    by (apply non_string_replies_fail; assumption).
  assert (Hprint :
    Forall (fun e => printable (str_exn e) = true)
      (repeat (no_attribute content (lit "strip")) Summarize.MAX_RETRIES))
    by (apply Forall_repeat, no_attribute_printable; reflexivity).
  rewrite (with_retries_exhausted (MAX_RETRIES := Summarize.MAX_RETRIES)
             (lit "[SUMMARY_ERROR] ") (repeat_length _ _) Hfail Hprint).
  split; reflexivity.
Qed.

End NonStringContent.

Lemma non_string_content_exhausts_summarizer_witness :
  fst (@Summarize.summarize_with_llm plain_runtime (lit "hello")
         (replying (ok_response PNone)))
  = inr (PStr (lit "[SUMMARY_ERROR] 'NoneType' object has no attribute 'strip'"))
  /\ sent (snd (@Summarize.summarize_with_llm plain_runtime (lit "hello")
                  (replying (ok_response PNone))))
     = 2.
Proof.
  apply (@non_string_content_exhausts_summarizer plain_runtime (lit "hello")
           (replying (ok_response PNone)) PNone).
  - intros text. discriminate.
  - intros i _. apply ok_response_succeeds.
Defined.

(** ** [topic.py]: a summary whose request fails for good *)

Section PermanentFailure.
Context {RT : Runtime}.

(** The errors of the [try] body of [classify_summary] are those of the
    decoder and ASCII ones. *)
Lemma parse_error_printable (raw_content : pyval) (e : exn) :
  (forall doc, printable (json_error_message doc) = true) ->
  Topic.parse_subcategories raw_content = inl e ->
  printable (str_exn e) = true.
Proof.
  intros Hj. unfold Topic.parse_subcategories.
  destruct (Topic.json_span raw_content) as [e0|text] eqn:E0; cbn [bind_exn].
  - intros [= <-]. unfold Topic.json_span in E0.
    destruct raw_content; try (injection E0 as <-; now apply no_attribute_printable).
    destruct (_ && _)%bool in E0; discriminate.
  - destruct (json_loads text) as [e1|parsed] eqn:E1; cbn [bind_exn].
    + intros [= <-]. unfold json_loads in E1.
      destruct (decode _ _); try discriminate; injection E1 as <-; apply Hj.
    + destruct (Topic.get_subcategories parsed) as [e2|sub_list] eqn:E2;
        cbn [bind_exn].
      * intros [= <-]. unfold Topic.get_subcategories in E2.
        destruct parsed;
          try (injection E2 as <-; now apply no_attribute_printable).
        destruct (dict_get _ _); discriminate.
      * destruct (iterate sub_list) as [e3|elements] eqn:E3; cbn [bind_exn];
          [|discriminate].
        intros [= <-]. unfold iterate in E3.
        destruct sub_list; try discriminate; injection E3 as <-; reflexivity.
Qed.

Lemma last_error_printable (errors : list exn) :
  forall last_error,
    printable (str_opt_exn last_error) = true ->
    Forall (fun e => printable (str_exn e) = true) errors ->
    printable (str_opt_exn (last (map Some errors) last_error)) = true.
Proof.
  induction errors as [|e errors IH]; intros last_error Hd H; [exact Hd|].
  inversion H as [|? ? He Hes]; subst.
  change (map Some (e :: errors)) with (Some e :: map Some errors).
  rewrite last_cons_default. now apply IH.
Qed.

(** X4: when every attempt of the request of a summary that is not blank
    fails, and the text of the last error holds no opening brace or no
    closing brace, [classify_summary] returns three empty placeholders
    after [MAX_RETRIES] requests, and prints the parse failure and the
    marker text it tried to parse; all this is printed, which takes a
    standard output that can encode the errors of the attempts and the
    messages of the decoder. *)
Theorem permanent_failure_gives_placeholders (summary_text : str)
    (subcategories : list str) (w : World) (errors : list exn) :
  let request :=
    Topic.llm_request
      (Topic.build_classification_messages summary_text subcategories) in
  let message := str_opt_exn (last (map Some errors) None) in
  Topic.is_blank summary_text = false ->
  length errors = Topic.MAX_RETRIES ->
  replies_fail request (fun content => inr content) w errors ->
  ~ In 123%N message \/ ~ In 125%N message ->
  Forall (fun e => printable (str_exn e) = true) errors ->
  (forall doc, printable (json_error_message doc) = true) ->
  exists e,
    Topic.classify_summary summary_text subcategories w
    = (inr [[]; []; []],
       advance w Topic.MAX_RETRIES
         (between [EvSleep 1]
            (map (attempt_block Topic.MAX_RETRIES request)
               (combine (seq 1 Topic.MAX_RETRIES) errors))
          ++ parse_failure_lines e (PStr (lit "[LLM_ERROR] " ++ message)))).
Proof.
  cbv zeta. intros Hblank Hlen Hfail Hbrace Hprint Hdecoder.
  unfold Topic.classify_summary. rewrite Hblank. unfold bind, Topic.call_llm.
  erewrite with_retries_exhausted by eassumption.
  assert (Hmarked :
    ~ In 123%N (lit "[LLM_ERROR] " ++ str_opt_exn (last (map Some errors) None))
    \/ ~ In 125%N (lit "[LLM_ERROR] " ++ str_opt_exn (last (map Some errors) None))).
  { destruct Hbrace as [H|H]; [left|right]; intros Hin;
      apply in_app_or in Hin; destruct Hin as [Hin|Hin]; try (now apply H);
      vm_compute in Hin; intuition discriminate. }
  destruct (brace_absent_fails _ Hmarked) as [e He].
  exists e. erewrite extract_classification_failed.
  - rewrite advance_advance, Nat.add_0_r. reflexivity.
  - exact He.
  - now apply parse_error_printable with (2 := He).
  - cbn [py_str]. rewrite printable_app.
    now rewrite last_error_printable.
Qed.

End PermanentFailure.

Lemma permanent_failure_gives_placeholders_witness :
  exists e,
    @Topic.classify_summary plain_runtime (lit "refund asked") [lit "Refund"]
      (replying (inl connection_refused))
    = (inr [[]; []; []],
       advance (replying (inl connection_refused)) Topic.MAX_RETRIES
         (between [EvSleep 1]
            (map (@attempt_block plain_runtime Topic.MAX_RETRIES
                    (Topic.llm_request
                       (Topic.build_classification_messages (lit "refund asked")
                          [lit "Refund"])))
               (combine (seq 1 Topic.MAX_RETRIES) (repeat connection_refused 2)))
          ++ @parse_failure_lines plain_runtime e
               (PStr (lit "[LLM_ERROR] "
                        ++ @str_opt_exn plain_runtime
                             (last (map Some (repeat connection_refused 2)) None))))).
Proof.
  apply (@permanent_failure_gives_placeholders plain_runtime (lit "refund asked")
           [lit "Refund"] (replying (inl connection_refused))
           (repeat connection_refused 2)).
  - reflexivity.
  - reflexivity.
  - apply always_failing.
  - left. vm_compute. intuition discriminate.
  - repeat constructor.
  - reflexivity.
Defined.

(** ** [topic.py]: the shape of the three slots *)


Section SlotShape.
Context {RT : Runtime}.




End SlotShape.

(** ** [topic.py]: text around the JSON object *)

Lemma lstrip_app_nonspace (pre : str) (x : N) (t : str) :
  is_space x = false -> lstrip (pre ++ x :: t) = lstrip pre ++ x :: t.
Proof.
  intros Hx. induction pre as [|c pre IH]; simpl.
  - now rewrite Hx.
  - destruct (is_space c); [exact IH|reflexivity].
Qed.

Lemma rstrip_app_nonspace (u : str) (y : N) (post : str) :
  is_space y = false -> rstrip (u ++ y :: post) = u ++ y :: rstrip post.
Proof.
  intros Hy. unfold rstrip.
  rewrite rev_app_distr. simpl rev. rewrite <- app_assoc. simpl app.
  rewrite lstrip_app_nonspace by exact Hy.
  rewrite rev_app_distr. simpl rev. rewrite rev_involutive.
  now rewrite <- app_assoc.
Qed.

Lemma rstrip_incl (s : str) (x : N) : In x (rstrip s) -> In x s.
Proof.
  unfold rstrip. intros H. apply in_rev in H. apply lstrip_incl in H.
  now apply in_rev.
Qed.

Lemma find_app_absent (c : N) (pre rest : str) :
  ~ In c pre -> find c (pre ++ c :: rest) = Z.of_nat (length pre).
Proof.
  induction pre as [|x pre IH]; intros H.
  - simpl. now rewrite N.eqb_refl.
  - simpl app. cbn [find length]. rewrite IH by (simpl in H; tauto).
    destruct (N.eqb_spec x c) as [->|_]; [simpl in H; tauto|].
    destruct (Z.ltb_spec (Z.of_nat (length pre)) 0); lia.
Qed.

Lemma rfind_app_absent (c : N) (u t : str) :
  ~ In c t -> rfind c (u ++ c :: t) = Z.of_nat (length u).
Proof.
  intros H. induction u as [|x u IH].
  - simpl. rewrite (rfind_absent _ _ H). simpl. now rewrite N.eqb_refl.
  - simpl app. cbn [rfind length]. rewrite IH.
    destruct (Z.leb_spec 0 (Z.of_nat (length u))); lia.
Qed.

Lemma slice_middle {A} (a b c : list A) :
  slice (a ++ b ++ c) (Z.of_nat (length a)) (Z.of_nat (length a + length b)) = b.
Proof.
  unfold slice, clamp_index. rewrite !length_app.
  destruct (Z.ltb_spec (Z.of_nat (length a)) 0); [lia|].
  destruct (Z.ltb_spec (Z.of_nat (length a + length b)) 0); [lia|].
  rewrite !Z.min_l by lia.
  replace (Z.to_nat (Z.of_nat (length a + length b) - Z.of_nat (length a)))
    with (length b) by lia.
  rewrite Nat2Z.id.
  rewrite skipn_app, skipn_all, Nat.sub_diag. simpl.
  rewrite firstn_app, firstn_all, Nat.sub_diag. simpl. apply app_nil_r.
Qed.

(** The span of an object with text around it is the object. *)
Lemma json_span_of_object (pre body post : str) :
  ~ In 123%N pre -> ~ In 125%N post ->
  Topic.json_span (PStr (pre ++ (123%N :: body ++ [125%N]) ++ post))
  = inr (123%N :: body ++ [125%N]).
Proof.
  intros Hpre Hpost. unfold Topic.json_span.
  assert (Hstrip :
    strip (pre ++ (123%N :: body ++ [125%N]) ++ post)
    = lstrip pre ++ (123%N :: body ++ [125%N]) ++ rstrip post).
  { unfold strip. simpl app. rewrite <- !app_assoc. simpl app.
    rewrite lstrip_app_nonspace by reflexivity.
    replace (lstrip pre ++ 123%N :: body ++ 125%N :: post)
      with ((lstrip pre ++ 123%N :: body) ++ 125%N :: post)
      by (now rewrite <- app_assoc).
    rewrite rstrip_app_nonspace by reflexivity.
    now rewrite <- app_assoc. }
  rewrite Hstrip.
  assert (Hfirst :
    find 123 (lstrip pre ++ (123%N :: body ++ [125%N]) ++ rstrip post)
    = Z.of_nat (length (lstrip pre))).
  { simpl app. apply find_app_absent. intros H. now apply lstrip_incl in H. }
  assert (Hlast :
    rfind 125 (lstrip pre ++ (123%N :: body ++ [125%N]) ++ rstrip post)
    = Z.of_nat (length (lstrip pre ++ 123%N :: body))).
  { replace (lstrip pre ++ (123%N :: body ++ [125%N]) ++ rstrip post)
      with ((lstrip pre ++ 123%N :: body) ++ 125%N :: rstrip post)
      by (simpl; rewrite <- !app_assoc; reflexivity).
    apply rfind_app_absent. intros H. now apply rstrip_incl in H. }
  rewrite Hfirst, Hlast.
  destruct (Z.eqb_spec (Z.of_nat (length (lstrip pre))) (-1)); [lia|].
  destruct (Z.eqb_spec (Z.of_nat (length (lstrip pre ++ 123%N :: body))) (-1)); [lia|].
  cbn [negb andb]. f_equal.
  replace (Z.of_nat (length (lstrip pre ++ 123%N :: body)) + 1)%Z
    with (Z.of_nat (length (lstrip pre) + length (123%N :: body ++ [125%N])))
    by (rewrite !length_app; simpl; rewrite length_app; simpl; lia).
  apply slice_middle.
Qed.

Section Chatter.
Context {RT : Runtime}.

(** X6: text before a JSON object that holds no opening brace and text
    after it that holds no closing brace are ignored: the assistant's
    answer is parsed as the object alone would be, and gives the same
    three slots: those of the object when it parses, with nothing
    printed, and whenever the answer gives slots the object alone gives
    the same (the text around it only adds to what the handler has to
    print). *)
Theorem chatter_around_object_is_ignored (pre body post : str) :
  ~ In 123%N pre ->
  ~ In 125%N post ->
  let object := 123%N :: body ++ [125%N] in
  Topic.json_span (PStr (pre ++ object ++ post)) = inr object
  /\ Topic.parse_subcategories (PStr (pre ++ object ++ post))
     = Topic.parse_subcategories (PStr object)
  /\ (forall w slots,
        Topic.parse_subcategories (PStr object) = inr slots ->
        Topic.extract_classification (PStr (pre ++ object ++ post)) w
        = (inr slots, w))
  /\ (forall w w' slots,
        fst (Topic.extract_classification (PStr (pre ++ object ++ post)) w)
        = inr slots ->
        fst (Topic.extract_classification (PStr object) w') = inr slots).
Proof.
  intros Hpre Hpost. cbv zeta.
  pose proof (@json_span_of_object pre body post Hpre Hpost) as Hspan.
  assert (Halone :
    Topic.json_span (PStr (123%N :: body ++ [125%N]))
    = inr (123%N :: body ++ [125%N])).
  { pose proof (@json_span_of_object [] body [] (fun H => H) (fun H => H)) as H.
    simpl app in H. rewrite app_nil_r in H. exact H. }
  assert (Hparse :
    Topic.parse_subcategories (PStr (pre ++ (123%N :: body ++ [125%N]) ++ post))
    = Topic.parse_subcategories (PStr (123%N :: body ++ [125%N]))).
  { unfold Topic.parse_subcategories. now rewrite Hspan, Halone. }
  split; [exact Hspan|]. split; [exact Hparse|]. split.
  - intros w slots H. apply extract_classification_ok. now rewrite Hparse.
  - intros w w' slots.
    destruct (Topic.parse_subcategories (PStr (123%N :: body ++ [125%N])))
      as [e|l] eqn:E.
    + destruct (printable (str_exn e)
                && printable (py_str (PStr (pre ++ (123%N :: body ++ [125%N]) ++ post))))
        eqn:Hp.
      * apply andb_true_iff in Hp. destruct Hp as [H1 H2].
        rewrite (extract_classification_failed _ w Hparse H1 H2).
        rewrite (extract_classification_failed _ w' E H1);
          [trivial|cbn [py_str] in *; now apply printable_part in H2].
      * destruct (extract_classification_aborts _ w Hparse Hp)
          as (line & evs & -> & _).
        discriminate.
    + rewrite (extract_classification_ok _ w' E).
      now rewrite (extract_classification_ok _ w Hparse).
Qed.

End Chatter.

Lemma chatter_around_object_is_ignored_witness :
  Topic.json_span
    (PStr (lit "Sure! " ++ (123%N :: jlit "'subcategories':['A']" ++ [125%N])
             ++ lit " Hope it helps."))
  = inr (123%N :: jlit "'subcategories':['A']" ++ [125%N]).
Proof.
  apply (@chatter_around_object_is_ignored plain_runtime (lit "Sure! ")
           (jlit "'subcategories':['A']") (lit " Hope it helps.")).
  - vm_compute. intuition discriminate.
  - vm_compute. intuition discriminate.
Defined.

(** ** [topic.py]: the rows *)

Lemma main_category_sound (sub_to_main : list (str * str)) (s : str) :
  Topic.main_category sub_to_main s = []
  \/ dict_get sub_to_main s = Some (Topic.main_category sub_to_main s).
Proof.
  unfold Topic.main_category.
  destruct (truthy s); [|now left].
  destruct (dict_get sub_to_main s); [now right|now left].
Qed.

Section TopicRows.
Context {RT : Runtime}.

(** X7: a summary cell that is missing or holds only white space gives a
    row of six empty fields, and no request is sent for it. *)
Theorem blank_summary_gives_empty_row (subcategories : list str)
    (sub_to_main : list (str * str)) (idx : nat) (value : cell) (w : World) :
  isna value = true \/ forallb is_space (cell_str value) = true ->
  let out := Topic.classify_row subcategories sub_to_main idx value w in
  fst out = inr {| Topic.sub_category_1 := []; Topic.main_category_1 := [];
                   Topic.sub_category_2 := []; Topic.main_category_2 := [];
                   Topic.sub_category_3 := []; Topic.main_category_3 := [] |}
  /\ sent (snd out) = sent w
  /\ count_posts (trace (snd out)) = count_posts (trace w).
Proof.
  intros H. cbv zeta. unfold Topic.classify_row, Topic.classify_summary.
  assert (Hblank : Topic.is_blank (if isna value then [] else cell_str value) = true).
  { destruct H as [-> | H]; [reflexivity|].
    destruct (isna value); [reflexivity|now apply is_blank_iff]. }
  cbv zeta.
  match goal with
  | |- context [Topic.is_blank ?t] =>
      replace (Topic.is_blank t) with true by (symmetry; exact Hblank)
  end.
  unfold bind, ret. cbn [Topic.three_slots].
  destruct (progress_run idx w) as [lines ->]. simpl.
  rewrite count_posts_app, count_posts_prints.
  repeat split; lia.
Qed.

(** Nothing but the error of a [print] leaves [classify_summary]. *)
Lemma classify_summary_unless_print_fails (summary_text : str)
    (subcategories : list str) (w : World) :
  unless_print_fails (fun _ => True)
    (fst (Topic.classify_summary summary_text subcategories w)).
Proof.
  unfold Topic.classify_summary. destruct (Topic.is_blank _); [exact I|].
  eapply bind_unless_print_fails.
  - apply retry_loop_unless_print_fails.
  - intros raw w0 _.
    eapply unless_print_fails_weaken; [|apply extract_classification_three].
    trivial.
Qed.

(** X8: a main category is never invented: in every output row each main
    category is empty or is the catalog's entry of the subcategory beside
    it.  A row is returned unless a [print] on the way raises. *)
Theorem row_main_categories_come_from_catalog (subcategories : list str)
    (sub_to_main : list (str * str)) (idx : nat) (value : cell) (w : World) :
  unless_print_fails
    (fun row =>
       Forall
         (fun sm => snd sm = [] \/ dict_get sub_to_main (fst sm) = Some (snd sm))
         [ (Topic.sub_category_1 row, Topic.main_category_1 row);
           (Topic.sub_category_2 row, Topic.main_category_2 row);
           (Topic.sub_category_3 row, Topic.main_category_3 row) ])
    (fst (Topic.classify_row subcategories sub_to_main idx value w)).
Proof.
  unfold Topic.classify_row. cbv zeta.
  eapply bind_unless_print_fails.
  - apply classify_summary_unless_print_fails.
  - intros chosen w1 _.
    destruct (Topic.three_slots chosen) as [[s1 s2] s3].
    unfold bind, ret. destruct (progress_run idx w1) as [lines ->]. simpl.
    repeat (apply Forall_cons; [apply main_category_sound|]). apply Forall_nil.
Qed.

End TopicRows.

Lemma blank_summary_gives_empty_row_witness :
  fst (@Topic.classify_row plain_runtime [lit "Refund"] [(lit "Refund", lit "Billing")]
         0 (Text (lit "  "))
         (replying (ok_response (PStr (jlit "{'subcategories':['Refund']}")))))
  = inr {| Topic.sub_category_1 := []; Topic.main_category_1 := [];
           Topic.sub_category_2 := []; Topic.main_category_2 := [];
           Topic.sub_category_3 := []; Topic.main_category_3 := [] |}.
Proof.
  apply (@blank_summary_gives_empty_row plain_runtime [lit "Refund"]
           [(lit "Refund", lit "Billing")] 0 (Text (lit "  "))
           (replying (ok_response (PStr (jlit "{'subcategories':['Refund']}"))))).
  right. reflexivity.
Defined.

(** ** [topic.py]: the catalog, row after row *)

Lemma dict_get_set_same {V} (d : list (str * V)) (k : str) (v : V) :
  dict_get (dict_set d k v) k = Some v.
Proof.
  induction d as [|[k0 v0] d IH]; simpl.
  - now rewrite str_eqb_refl.
  - destruct (str_eqb k0 k) eqn:E; simpl; now rewrite E.
Qed.

Lemma dict_get_set_other {V} (d : list (str * V)) (k k' : str) (v : V) :
  k' <> k -> dict_get (dict_set d k' v) k = dict_get d k.
Proof.
  intros Hne. induction d as [|[k0 v0] d IH]; simpl.
  - apply str_eqb_neq in Hne. now rewrite Hne.
  - destruct (str_eqb k0 k') eqn:E; simpl.
    + apply str_eqb_eq in E. subst k0.
      apply str_eqb_neq in Hne. now rewrite Hne.
    + now rewrite IH.
Qed.

Lemma dict_set_keys_cases {V} (d : list (str * V)) (k : str) (v : V) :
  (In k (dict_keys d) /\ dict_keys (dict_set d k v) = dict_keys d)
  \/ (~ In k (dict_keys d) /\ dict_keys (dict_set d k v) = dict_keys d ++ [k]).
Proof.
  induction d as [|[k0 v0] d IH]; simpl.
  - right. split; [tauto|reflexivity].
  - destruct (str_eqb k0 k) eqn:E; simpl.
    + apply str_eqb_eq in E. left. split; [now left|reflexivity].
    + apply str_eqb_neq in E.
      destruct IH as [[Hin Hk]|[Hout Hk]]; rewrite Hk.
      * left. split; [now right|reflexivity].
      * right. split; [intros [H|H]; tauto|reflexivity].
Qed.

Lemma dict_set_keeps_nodup {V} (d : list (str * V)) (k : str) (v : V) :
  NoDup (dict_keys d) -> NoDup (dict_keys (dict_set d k v)).
Proof.
  intros H. destruct (dict_set_keys_cases d k v) as [[_ ->]|[Hout ->]]; [exact H|].
  apply NoDup_app;
    [exact H|repeat constructor; simpl; tauto|intros x Hx [<-|[]]; tauto].
Qed.

Lemma fold_combine_rows (rows : list (cell * cell)) :
  forall d,
    fold_left (fun d ms => dict_set d (snd ms) (fst ms))
      (combine (map (fun r => strip (cell_str (fst r))) rows)
               (map (fun r => strip (cell_str (snd r))) rows)) d
    = fold_left catalog_step rows d.
Proof.
  induction rows as [|r rows IH]; intros d; [reflexivity|]. simpl. apply IH.
Qed.

Lemma load_categories_fold (rows : list (cell * cell)) :
  Topic.load_categories rows
  = (dict_keys (fold_left catalog_step rows []), fold_left catalog_step rows []).
Proof. unfold Topic.load_categories. now rewrite fold_combine_rows. Qed.

Lemma catalog_fold_nodup (rows : list (cell * cell)) :
  forall d, NoDup (dict_keys d) -> NoDup (dict_keys (fold_left catalog_step rows d)).
Proof.
  induction rows as [|r rows IH]; intros d H; [exact H|].
  simpl. apply IH. now apply dict_set_keeps_nodup.
Qed.

Lemma catalog_fold_length (rows : list (cell * cell)) :
  forall d,
    length (dict_keys (fold_left catalog_step rows d))
    <= length (dict_keys d) + length rows.
Proof.
  induction rows as [|r rows IH]; intros d; simpl; [lia|].
  eapply Nat.le_trans; [apply IH|]. unfold catalog_step.
  destruct (dict_set_keys_cases d (strip (cell_str (snd r)))
              (strip (cell_str (fst r)))) as [[_ ->]|[_ ->]];
    rewrite ?length_app; simpl; lia.
Qed.

Lemma catalog_fold_keeps_keys (rows : list (cell * cell)) :
  forall d k, In k (dict_keys d) -> In k (dict_keys (fold_left catalog_step rows d)).
Proof.
  induction rows as [|r rows IH]; intros d k H; [exact H|].
  simpl. apply IH. unfold catalog_step.
  destruct (dict_set_keys_cases d (strip (cell_str (snd r)))
              (strip (cell_str (fst r)))) as [[_ ->]|[_ ->]];
    [exact H|apply in_or_app; now left].
Qed.

Lemma catalog_fold_complete (rows : list (cell * cell)) :
  forall d row,
    In row rows ->
    In (strip (cell_str (snd row))) (dict_keys (fold_left catalog_step rows d)).
Proof.
  induction rows as [|r rows IH]; intros d row H; [destruct H|].
  simpl. destruct H as [->|H]; [|now apply IH].
  apply catalog_fold_keeps_keys. unfold catalog_step.
  destruct (dict_set_keys_cases d (strip (cell_str (snd row)))
              (strip (cell_str (fst row)))) as [[Hin ->]|[_ ->]];
    [exact Hin|apply in_or_app; right; now left].
Qed.

Lemma catalog_fold_keeps_value (rows : list (cell * cell)) (k : str) :
  (forall row, In row rows -> strip (cell_str (snd row)) <> k) ->
  forall d, dict_get (fold_left catalog_step rows d) k = dict_get d k.
Proof.
  induction rows as [|r rows IH]; intros H d; [reflexivity|].
  simpl. rewrite IH by (intros row Hrow; apply H; now right).
  unfold catalog_step. apply dict_get_set_other. apply H. now left.
Qed.

(** X9: the list of subcategories [load_categories] returns is the list of
    the keys of the mapping; it holds no name twice, however often the rows
    repeat one, it is no longer than the rows, and it holds the trimmed
    subcategory of every row. *)
Theorem catalog_keys_unique_and_complete (rows : list (cell * cell)) :
  let subcategories := fst (Topic.load_categories rows) in
  let sub_to_main := snd (Topic.load_categories rows) in
  subcategories = dict_keys sub_to_main
  /\ NoDup subcategories
  /\ length subcategories <= length rows
  /\ Forall (fun row => In (strip (cell_str (snd row))) subcategories) rows.
Proof.
  cbv zeta. rewrite load_categories_fold. simpl fst. simpl snd.
  split; [reflexivity|]. split; [apply catalog_fold_nodup; constructor|].
  split; [apply (catalog_fold_length rows [])|].
  apply Forall_forall. intros row H. now apply catalog_fold_complete.
Qed.

(** X10: the mapping gives for a subcategory the main category of the last
    row that names it: when no later row has the same trimmed subcategory,
    the lookup returns the trimmed main category of this row. *)
Theorem catalog_last_row_wins (before after : list (cell * cell)) (main sub : cell) :
  (forall row, In row after ->
     strip (cell_str (snd row)) <> strip (cell_str sub)) ->
  dict_get (snd (Topic.load_categories (before ++ (main, sub) :: after)))
    (strip (cell_str sub))
  = Some (strip (cell_str main)).
Proof.
  intros H. rewrite load_categories_fold. simpl snd.
  rewrite fold_left_app. simpl fold_left.
  rewrite (catalog_fold_keeps_value after H).
  unfold catalog_step at 1. simpl. apply dict_get_set_same.
Qed.

Lemma catalog_last_row_wins_witness :
  dict_get
    (snd (Topic.load_categories
            ([(Text (lit "Billing"), Text (lit "Refund "))]
             ++ (Text (lit " Support"), Text (lit "Refund"))
             :: [(Text (lit "Billing"), Text (lit "Charge"))])))
    (strip (cell_str (Text (lit "Refund"))))
  = Some (strip (cell_str (Text (lit " Support")))).
Proof.
  apply (@catalog_last_row_wins
           [(Text (lit "Billing"), Text (lit "Refund "))]
           [(Text (lit "Billing"), Text (lit "Charge"))]
           (Text (lit " Support")) (Text (lit "Refund"))).
  intros row [<-|[]]. vm_compute. discriminate.
Defined.

(** ** [virgullu.py]: fields joined by commas *)

Lemma split_app_sep (sep : N) (a b : str) :
  ~ In sep a -> split sep (a ++ sep :: b) = a :: split sep b.
Proof.
  induction a as [|c a IH]; intros H.
  - simpl. now rewrite N.eqb_refl.
  - simpl. destruct (N.eqb_spec c sep) as [->|_]; [simpl in H; tauto|].
    rewrite IH by (simpl in H; tauto). reflexivity.
Qed.

Lemma split_without_sep (sep : N) (a : str) : ~ In sep a -> split sep a = [a].
Proof.
  induction a as [|c a IH]; intros H; [reflexivity|].
  simpl. destruct (N.eqb_spec c sep) as [->|_]; [simpl in H; tauto|].
  rewrite IH by (simpl in H; tauto). reflexivity.
Qed.

Lemma split_join (sep : N) (fields : list str) :
  fields <> [] ->
  (forall f, In f fields -> ~ In sep f) ->
  split sep (join [sep] fields) = fields.
Proof.
  induction fields as [|p fields IH]; intros Hne H; [congruence|].
  destruct fields as [|q fields].
  - simpl. apply split_without_sep. apply H. now left.
  - change (join [sep] (p :: q :: fields)) with (p ++ sep :: join [sep] (q :: fields)).
    rewrite split_app_sep by (apply H; now left).
    rewrite IH; [reflexivity|discriminate|].
    intros f Hf. apply H. now right.
Qed.

Lemma firstn_repeat {A} (x : A) (k n : nat) :
  firstn k (repeat x n) = repeat x (Nat.min k n).
Proof.
  revert n. induction k as [|k IH]; intros [|n]; simpl; try reflexivity.
  now rewrite IH.
Qed.

(** X11: a row written as fields that hold no comma, joined by commas, is
    read back as these fields: the six columns are the first six fields,
    each trimmed, with empty strings for the missing ones. *)
Theorem comma_free_fields_are_read_back (fields : list str) :
  (forall f, In f fields -> ~ In 44%N f) ->
  Virgullu.first_six_of (join [44%N] fields)
  = firstn 6 (map strip fields ++ repeat [] 6).
Proof.
  intros H. rewrite first_six_of_parts.
  destruct fields as [|p fields]; [reflexivity|].
  rewrite split_join by (auto; discriminate).
  rewrite firstn_app, length_map, firstn_map, firstn_repeat.
  rewrite Nat.min_l by apply Nat.le_sub_l. reflexivity.
Qed.

Lemma comma_free_fields_are_read_back_witness :
  Virgullu.first_six_of (join [44%N] [lit " 7"; lit "Ada "; lit "hello there"])
  = firstn 6 (map strip [lit " 7"; lit "Ada "; lit "hello there"] ++ repeat [] 6).
Proof.
  apply (@comma_free_fields_are_read_back [lit " 7"; lit "Ada "; lit "hello there"]).
  intros f [<-|[<-|[<-|[]]]]; vm_compute; intuition discriminate.
Defined.

(** ** The three [main] loops *)

Section MainLoops.
Context {RT : Runtime}.

#[local] Ltac bounds :=
  unfold Summarize.MAX_RETRIES, Virgullu.MAX_RETRIES, Topic.MAX_RETRIES in *; lia.

Lemma sent_after_print (line : str) (w : World) : sent (snd (print line w)) = sent w.
Proof. destruct (print_cases line w) as [[-> _]|[-> _]]; simpl; lia. Qed.

Lemma sent_after_progress (idx : nat) (w : World) :
  sent (snd (progress idx w)) = sent w.
Proof. destruct (progress_run idx w) as [lines ->]. simpl. lia. Qed.

(** A step followed by steps that send nothing. *)
Lemma bind_sent_quiet {A B} (c : M A) (k : A -> M B) (w : World) :
  (forall a w', sent (snd (k a w')) = sent w') ->
  sent (snd (bind c k w)) = sent (snd (c w)).
Proof.
  intros H. unfold bind. destruct (c w) as [[e|a] w']; [reflexivity|apply H].
Qed.

Lemma progress_then_ret_quiet {A} (idx : nat) (a : A) (w : World) :
  sent (snd ((progress idx ;; ret a) w)) = sent w.
Proof.
  rewrite bind_sent_quiet; [apply sent_after_progress|reflexivity].
Qed.

Lemma progress_then_ret_returns {A} (idx : nat) (a : A) (w : World) :
  fst ((progress idx ;; ret a) w) = inr a.
Proof. unfold bind. now destruct (progress_run idx w) as [lines ->]. Qed.

Lemma with_retries_sent (MAX : nat) (request : Request)
    (finish : pyval -> exn + pyval) (marker : str) (w : World) :
  1 <= MAX ->
  sent w + 1 <= sent (snd (with_retries MAX request finish marker w))
  <= sent w + MAX.
Proof.
  intros H.
  destruct (with_retries_disciplined request finish marker H w)
    as (evs & -> & _ & Hp & _).
  simpl. lia.
Qed.

Lemma extract_classification_sent (raw_content : pyval) (w : World) :
  sent (snd (Topic.extract_classification raw_content w)) = sent w.
Proof.
  unfold Topic.extract_classification.
  destruct (Topic.parse_subcategories raw_content); [|reflexivity].
  rewrite bind_sent_quiet; [apply sent_after_print|].
  intros _ w'. rewrite bind_sent_quiet; [apply sent_after_print|reflexivity].
Qed.

(** One row of [summarize.py]. *)
Lemma summarize_row_sent (idx : nat) (value : cell) (w : World) :
  let asked := if summarize_asks value then 1 else 0 in
  sent w + asked <= sent (snd (Summarize.summarize_row idx value w))
  <= sent w + Summarize.MAX_RETRIES * asked.
Proof.
  cbv zeta. unfold Summarize.summarize_row, summarize_asks. cbv zeta.
  rewrite bind_sent_quiet by (intros; apply progress_then_ret_quiet).
  destruct (truthy _).
  - pose proof (with_retries_sent (MAX := Summarize.MAX_RETRIES)
                  (Summarize.summary_request
                     (if isna value then [] else strip (cell_str value)))
                  method_strip (lit "[SUMMARY_ERROR] ") w) as H.
    unfold Summarize.summarize_with_llm. rewrite Nat.mul_1_r.
    apply H. repeat constructor.
  - simpl. lia.
Qed.

Lemma summarize_row_unless_print_fails (idx : nat) (value : cell) (w : World) :
  unless_print_fails (fun _ => True) (fst (Summarize.summarize_row idx value w)).
Proof.
  unfold Summarize.summarize_row. cbv zeta.
  eapply bind_unless_print_fails with (P := fun _ => True).
  - destruct (truthy _); [apply retry_loop_unless_print_fails|exact I].
  - intros summary w' _. now rewrite progress_then_ret_returns.
Qed.

Lemma summarize_rows_loop (values : list cell) :
  forall idx summaries w,
    let out := Summarize.rows_loop idx values summaries w in
    let asked := length (filter summarize_asks values) in
    sent w <= sent (snd out) <= sent w + Summarize.MAX_RETRIES * asked
    /\ unless_print_fails
         (fun result =>
            length result = length summaries + length values
            /\ sent w + asked <= sent (snd out))
         (fst out).
Proof.
  induction values as [|value values IH]; intros idx summaries w; cbv zeta.
  - simpl. repeat split; lia.
  - cbn [Summarize.rows_loop filter]. unfold bind.
    pose proof (summarize_row_sent idx value w) as Hrow.
    pose proof (summarize_row_unless_print_fails idx value w) as Hu.
    cbv zeta in Hrow.
    destruct (Summarize.summarize_row idx value w) as [[e|summary] w1].
    + simpl in Hrow, Hu |- *. split; [|exact Hu].
      destruct (summarize_asks value); simpl length; bounds.
    + specialize (IH (S idx) (summaries ++ [summary]) w1). cbv zeta in IH.
      destruct IH as [Hsent Hres]. simpl in Hrow.
      split; [destruct (summarize_asks value); simpl length; bounds|].
      eapply unless_print_fails_weaken; [|exact Hres].
      intros result [Hlen Hlow]. rewrite length_app in Hlen. simpl in Hlen.
      split; [simpl; lia|].
      destruct (summarize_asks value); simpl length; bounds.
Qed.

(** One row of [virgullu.py]. *)
Lemma structure_row_sent (idx : nat) (value : cell) (w : World) :
  let asked := if virgullu_asks value then 1 else 0 in
  sent w + asked <= sent (snd (Virgullu.structure_row idx value w))
  <= sent w + Virgullu.MAX_RETRIES * asked.
Proof.
  cbv zeta. unfold Virgullu.structure_row, virgullu_asks. cbv zeta.
  rewrite bind_sent_quiet by (intros; apply progress_then_ret_quiet).
  destruct (truthy _).
  - pose proof (with_retries_sent (MAX := Virgullu.MAX_RETRIES)
                  (Virgullu.summary_request
                     (nth 5 (Virgullu.first_six_of
                               (if isna value then [] else cell_str value)) []))
                  method_strip (lit "[SUMMARY_ERROR] ") w) as H.
    unfold Virgullu.summarize_with_llm. rewrite Nat.mul_1_r.
    apply H. repeat constructor.
  - simpl. lia.
Qed.

Lemma structure_row_unless_print_fails (idx : nat) (value : cell) (w : World) :
  unless_print_fails
    (fun r =>
       fst r = Virgullu.first_six_of (if isna value then [] else cell_str value))
    (fst (Virgullu.structure_row idx value w)).
Proof.
  unfold Virgullu.structure_row. cbv zeta.
  eapply bind_unless_print_fails with (P := fun _ => True).
  - destruct (truthy _); [apply retry_loop_unless_print_fails|exact I].
  - intros summary w' _. now rewrite progress_then_ret_returns.
Qed.

Lemma structure_rows_loop (values : list cell) :
  forall idx columns summaries w,
    let out := Virgullu.rows_loop idx values columns summaries w in
    let asked := length (filter virgullu_asks values) in
    sent w <= sent (snd out) <= sent w + Virgullu.MAX_RETRIES * asked
    /\ unless_print_fails
         (fun result =>
            fst result
            = columns
                ++ map (fun value =>
                          Virgullu.first_six_of
                            (if isna value then [] else cell_str value))
                     values
            /\ length (snd result) = length summaries + length values
            /\ sent w + asked <= sent (snd out))
         (fst out).
Proof.
  induction values as [|value values IH]; intros idx columns summaries w; cbv zeta.
  - simpl. rewrite app_nil_r. repeat split; lia.
  - cbn [Virgullu.rows_loop filter map]. unfold bind.
    pose proof (structure_row_sent idx value w) as Hrow.
    pose proof (structure_row_unless_print_fails idx value w) as Hu.
    cbv zeta in Hrow.
    destruct (Virgullu.structure_row idx value w) as [[e|[six summary]] w1].
    + simpl in Hrow, Hu |- *. split; [|exact Hu].
      destruct (virgullu_asks value); simpl length; bounds.
    + simpl in Hu. subst six. cbn [fst snd].
      specialize (IH (S idx)
                    (columns ++ [Virgullu.first_six_of
                                   (if isna value then [] else cell_str value)])
                    (summaries ++ [summary]) w1).
      cbv zeta in IH. destruct IH as [Hsent Hres]. simpl in Hrow.
      split; [destruct (virgullu_asks value); simpl length; bounds|].
      eapply unless_print_fails_weaken; [|exact Hres].
      intros result (Hcols & Hlen & Hlow).
      rewrite length_app in Hlen. simpl in Hlen.
      split; [now rewrite Hcols, <- app_assoc|].
      split; [simpl; lia|].
      destruct (virgullu_asks value); simpl length; bounds.
Qed.

(** One row of [topic.py]. *)
Lemma classify_summary_sent (summary_text : str) (subcategories : list str)
    (w : World) :
  let asked := if Topic.is_blank summary_text then 0 else 1 in
  sent w + asked
  <= sent (snd (Topic.classify_summary summary_text subcategories w))
  <= sent w + Topic.MAX_RETRIES * asked.
Proof.
  cbv zeta. unfold Topic.classify_summary.
  destruct (Topic.is_blank summary_text); [simpl; lia|].
  rewrite bind_sent_quiet by (intros; apply extract_classification_sent).
  pose proof (with_retries_sent (MAX := Topic.MAX_RETRIES)
                (Topic.llm_request
                   (Topic.build_classification_messages summary_text subcategories))
                (fun content => inr content) (lit "[LLM_ERROR] ") w) as H.
  unfold Topic.call_llm. rewrite Nat.mul_1_r.
  apply H. repeat constructor.
Qed.

Lemma classify_row_sent (subcategories : list str) (sub_to_main : list (str * str))
    (idx : nat) (value : cell) (w : World) :
  let asked := if topic_asks value then 1 else 0 in
  sent w + asked
  <= sent (snd (Topic.classify_row subcategories sub_to_main idx value w))
  <= sent w + Topic.MAX_RETRIES * asked.
Proof.
  cbv zeta. unfold Topic.classify_row, topic_asks. cbv zeta.
  rewrite bind_sent_quiet.
  - pose proof (classify_summary_sent
                  (if isna value then [] else cell_str value) subcategories w) as H.
    cbv zeta in H.
    destruct (Topic.is_blank (if isna value then [] else cell_str value));
      exact H.
  - intros chosen w'. destruct (Topic.three_slots chosen) as [[s1 s2] s3].
    apply progress_then_ret_quiet.
Qed.

Lemma classify_row_unless_print_fails (subcategories : list str)
    (sub_to_main : list (str * str)) (idx : nat) (value : cell) (w : World) :
  unless_print_fails (fun _ => True)
    (fst (Topic.classify_row subcategories sub_to_main idx value w)).
Proof.
  unfold Topic.classify_row. cbv zeta.
  eapply bind_unless_print_fails.
  - apply classify_summary_unless_print_fails.
  - intros chosen w' _. destruct (Topic.three_slots chosen) as [[s1 s2] s3].
    now rewrite progress_then_ret_returns.
Qed.

Lemma classify_rows_loop (subcategories : list str) (sub_to_main : list (str * str))
    (values : list cell) :
  forall idx rows w,
    let out := Topic.rows_loop subcategories sub_to_main idx values rows w in
    let asked := length (filter topic_asks values) in
    sent w <= sent (snd out) <= sent w + Topic.MAX_RETRIES * asked
    /\ unless_print_fails
         (fun result =>
            length result = length rows + length values
            /\ sent w + asked <= sent (snd out))
         (fst out).
Proof.
  induction values as [|value values IH]; intros idx rows w; cbv zeta.
  - simpl. repeat split; lia.
  - cbn [Topic.rows_loop filter]. unfold bind.
    pose proof (classify_row_sent subcategories sub_to_main idx value w) as Hrow.
    pose proof (classify_row_unless_print_fails subcategories sub_to_main idx value w)
      as Hu.
    cbv zeta in Hrow.
    destruct (Topic.classify_row subcategories sub_to_main idx value w)
      as [[e|row] w1].
    + simpl in Hrow, Hu |- *. split; [|exact Hu].
      destruct (topic_asks value); simpl length; bounds.
    + specialize (IH (S idx) (rows ++ [row]) w1). cbv zeta in IH.
      destruct IH as [Hsent Hres]. simpl in Hrow.
      split; [destruct (topic_asks value); simpl length; bounds|].
      eapply unless_print_fails_weaken; [|exact Hres].
      intros result [Hlen Hlow]. rewrite length_app in Hlen. simpl in Hlen.
      split; [simpl; lia|].
      destruct (topic_asks value); simpl length; bounds.
Qed.

(** What [main] adds around its loop are lines of ASCII, which are always
    written and send nothing. *)
Lemma summarize_main_run (rows : list cell) (w : World) :
  let out := Summarize.main rows w in
  let asked := length (filter summarize_asks rows) in
  sent w <= sent (snd out) <= sent w + Summarize.MAX_RETRIES * asked
  /\ unless_print_fails
       (fun summaries =>
          length summaries = length rows /\ sent w + asked <= sent (snd out))
       (fst out).
Proof.
  cbv zeta. unfold Summarize.main, bind, ret. rewrite !print_run by reflexivity.
  match goal with
  | |- context [Summarize.rows_loop 0 rows [] ?W] =>
      pose proof (summarize_rows_loop rows 0 [] W) as H;
      destruct (Summarize.rows_loop 0 rows [] W) as [[e|summaries] w1]
  end; cbv zeta in H; simpl in H; destruct H as [Hsent Hres].
  - simpl. split; [lia|exact Hres].
  - rewrite !print_run by reflexivity. simpl. split; [lia|].
    destruct Hres. split; lia.
Qed.

Lemma virgullu_main_run (rows : list cell) (w : World) :
  let out := Virgullu.main rows w in
  let asked := length (filter virgullu_asks rows) in
  sent w <= sent (snd out) <= sent w + Virgullu.MAX_RETRIES * asked
  /\ unless_print_fails
       (fun result =>
          fst result
          = map (fun value =>
                   Virgullu.first_six_of (if isna value then [] else cell_str value))
              rows
          /\ length (snd result) = length rows
          /\ sent w + asked <= sent (snd out))
       (fst out).
Proof.
  cbv zeta. unfold Virgullu.main, bind, ret. rewrite !print_run by reflexivity.
  match goal with
  | |- context [Virgullu.rows_loop 0 rows [] [] ?W] =>
      pose proof (structure_rows_loop rows 0 [] [] W) as H;
      destruct (Virgullu.rows_loop 0 rows [] [] W) as [[e|result] w1]
  end; cbv zeta in H; simpl in H; destruct H as [Hsent Hres].
  - simpl. split; [lia|exact Hres].
  - rewrite !print_run by reflexivity. simpl. split; [lia|].
    destruct Hres as (Hcols & Hlen & Hlow). repeat split; auto; lia.
Qed.

Lemma topic_main_run (category_rows : list (cell * cell)) (rows : list cell)
    (w : World) :
  let out := Topic.main category_rows rows w in
  let asked := length (filter topic_asks rows) in
  sent w <= sent (snd out) <= sent w + Topic.MAX_RETRIES * asked
  /\ unless_print_fails
       (fun result =>
          length result = length rows /\ sent w + asked <= sent (snd out))
       (fst out).
Proof.
  cbv zeta. unfold Topic.main, bind, ret.
  destruct (Topic.load_categories category_rows) as [subcategories sub_to_main].
  rewrite print_run by reflexivity.
  rewrite print_run by (now rewrite !printable_app, printable_str_of_nat).
  rewrite !print_run by reflexivity.
  match goal with
  | |- context [Topic.rows_loop subcategories sub_to_main 0 rows [] ?W] =>
      pose proof (classify_rows_loop subcategories sub_to_main rows 0 [] W) as H;
      destruct (Topic.rows_loop subcategories sub_to_main 0 rows [] W)
        as [[e|result] w1]
  end; cbv zeta in H; simpl in H; destruct H as [Hsent Hres].
  - simpl. split; [lia|exact Hres].
  - rewrite !print_run by reflexivity. simpl. split; [lia|].
    destruct Hres. split; lia.
Qed.


(** X13: for every row that has something to send (a transcript, a sixth
    part, a summary that is not blank) the row's step sends at least one
    request and at most [MAX_RETRIES] requests, and for any other row it
    sends none, also when a [print] of the step raises.  So a [main] never
    sends more than [MAX_RETRIES] requests for each such row, and when it
    returns it has sent at least one for each. *)
Theorem requests_per_row_are_bounded :
  (forall idx value w,
     let asked := if summarize_asks value then 1 else 0 in
     sent w + asked <= sent (snd (Summarize.summarize_row idx value w))
     <= sent w + Summarize.MAX_RETRIES * asked)
  /\ (forall idx value w,
        let asked := if virgullu_asks value then 1 else 0 in
        sent w + asked <= sent (snd (Virgullu.structure_row idx value w))
        <= sent w + Virgullu.MAX_RETRIES * asked)
  /\ (forall subcategories sub_to_main idx value w,
        let asked := if topic_asks value then 1 else 0 in
        sent w + asked
        <= sent (snd (Topic.classify_row subcategories sub_to_main idx value w))
        <= sent w + Topic.MAX_RETRIES * asked)
  /\ (forall rows w,
        let out := Summarize.main rows w in
        let asked := length (filter summarize_asks rows) in
        sent (snd out) <= sent w + Summarize.MAX_RETRIES * asked
        /\ (forall summaries, fst out = inr summaries ->
              sent w + asked <= sent (snd out)))
  /\ (forall rows w,
        let out := Virgullu.main rows w in
        let asked := length (filter virgullu_asks rows) in
        sent (snd out) <= sent w + Virgullu.MAX_RETRIES * asked
        /\ (forall result, fst out = inr result ->
              sent w + asked <= sent (snd out)))
  /\ (forall category_rows rows w,
        let out := Topic.main category_rows rows w in
        let asked := length (filter topic_asks rows) in
        sent (snd out) <= sent w + Topic.MAX_RETRIES * asked
        /\ (forall result, fst out = inr result ->
              sent w + asked <= sent (snd out))).
Proof.
  split; [exact summarize_row_sent|].
  split; [exact structure_row_sent|].
  split; [exact classify_row_sent|].
  split; [|split].
  - intros rows w. cbv zeta.
    destruct (summarize_main_run rows w) as [Hsent Hres]. cbv zeta in Hsent, Hres.
    split; [lia|]. intros summaries E. rewrite E in Hres. apply Hres.
  - intros rows w. cbv zeta.
    destruct (virgullu_main_run rows w) as [Hsent Hres]. cbv zeta in Hsent, Hres.
    split; [lia|]. intros result E. rewrite E in Hres. apply Hres.
  - intros category_rows rows w. cbv zeta.
    destruct (topic_main_run category_rows rows w) as [Hsent Hres].
    cbv zeta in Hsent, Hres.
    split; [lia|]. intros result E. rewrite E in Hres. apply Hres.
Qed.

(** The row whose answer cannot be printed. *)
Lemma classify_row_aborts (subcategories : list str) (sub_to_main : list (str * str))
    (idx : nat) (summary_text text : str) (e : exn) (w : World) :
  let request :=
    Topic.llm_request
      (Topic.build_classification_messages summary_text subcategories) in
  Topic.is_blank summary_text = false ->
  succeeds_with (endpoint w (sent w) request) (PStr text) ->
  Topic.parse_subcategories (PStr text) = inl e ->
  printable (str_exn e) = true ->
  printable text = false ->
  Topic.classify_row subcategories sub_to_main idx (Text summary_text) w
  = (inl (UnicodeEncodeError (lit "Raw content was: " ++ text)),
     advance w 1
       [ EvPost request;
         EvPrint (lit "[ERROR] Failed to parse JSON from LLM response: "
                    ++ str_exn e) ]).
Proof.
  cbv zeta. intros Hblank Hok Hparse He Htext.
  unfold Topic.classify_row. cbn [isna cell_str]. unfold bind.
  erewrite classify_summary_first_try by eassumption.
  unfold Topic.extract_classification. rewrite Hparse. unfold bind.
  rewrite print_run by now rewrite printable_app, He.
  rewrite print_fails by (cbn [py_str]; now rewrite printable_app, Htext).
  rewrite advance_advance. reflexivity.
Qed.

(** X15: an answer that does not parse and that standard output cannot
    encode stops [topic.py]: the second [print] of the handler of
    [classify_summary] raises, nothing catches the error, and [main] ends
    with it at that row; the rows after it are never asked about and no
    output is written. *)
Theorem unprintable_answer_stops_the_classification
    (category_rows : list (cell * cell)) (summary_text text : str)
    (rows : list cell) (e : exn) (w : World) :
  let request :=
    Topic.llm_request
      (Topic.build_classification_messages summary_text
         (fst (Topic.load_categories category_rows))) in
  let out := Topic.main category_rows (Text summary_text :: rows) w in
  Topic.is_blank summary_text = false ->
  succeeds_with (endpoint w (sent w) request) (PStr text) ->
  Topic.parse_subcategories (PStr text) = inl e ->
  printable (str_exn e) = true ->
  printable text = false ->
  fst out = inl (UnicodeEncodeError (lit "Raw content was: " ++ text))
  /\ sent (snd out) = sent w + 1
  /\ count_posts (trace (snd out)) = count_posts (trace w) + 1.
Proof.
  cbv zeta. intros Hblank Hok Hparse He Htext.
  unfold Topic.main, bind, ret.
  destruct (Topic.load_categories category_rows) as [subcategories sub_to_main].
  cbn [fst] in Hok.
  rewrite print_run by reflexivity.
  rewrite print_run by (now rewrite !printable_app, printable_str_of_nat).
  rewrite !print_run by reflexivity.
  rewrite !advance_advance. cbn [Topic.rows_loop]. unfold bind.
  erewrite classify_row_aborts; try eassumption.
  - cbn [fst snd advance sent trace].
    split; [reflexivity|]. split; [lia|].
    rewrite count_posts_app. f_equal.
    rewrite count_posts_app. exact (Nat.add_0_r _).
  - simpl. now rewrite Nat.add_0_r.
Qed.

End MainLoops.

Lemma unprintable_answer_stops_the_classification_witness :
  let w := replying (ok_response (PStr [55296%N])) in
  let out :=
    @Topic.main plain_runtime [(Text (lit "Billing"), Text (lit "Refund"))]
      [Text (lit "refund asked"); Text (lit "card lost")] w in
  fst out = inl (UnicodeEncodeError (lit "Raw content was: " ++ [55296%N]))
  /\ sent (snd out) = 1
  /\ count_posts (trace (snd out)) = 1.
Proof.
  apply (@unprintable_answer_stops_the_classification plain_runtime
           [(Text (lit "Billing"), Text (lit "Refund"))] (lit "refund asked")
           [55296%N] [Text (lit "card lost")]
           (JSONDecodeError [55296%N])
           (replying (ok_response (PStr [55296%N])))).
  - reflexivity.
  - apply ok_response_succeeds.
  - vm_compute. reflexivity.
  - reflexivity.
  - reflexivity.
Defined.

(** ** [virgullu.py] is [summarize.py] after the split *)

Section SameSummarizer.
Context {RT : Runtime}.

Lemma sixth_part_trimmed (row_text : str) :
  nth 5 (Virgullu.first_six_of row_text) []
  = strip (nth 5 (Virgullu.first_six_of row_text) []).
Proof. rewrite first_six_of_nth by lia. symmetry. apply strip_idem. Qed.

Lemma structure_row_as_summarize_row (idx : nat) (value : cell) (w : World) :
  match Virgullu.structure_row idx value w with
  | (inr r, w') => (inr (snd r), w')
  | (inl e, w') => (inl e, w')
  end = Summarize.summarize_row idx (sixth_field value) w.
Proof.
  unfold Virgullu.structure_row, Summarize.summarize_row, sixth_field, bind, ret.
  cbv zeta. cbn [isna cell_str].
  repeat match goal with
  | |- context [strip ?t] =>
      replace (strip t) with t by exact (sixth_part_trimmed _)
  end.
  unfold Virgullu.summarize_with_llm.
  change (with_retries Virgullu.MAX_RETRIES (Virgullu.summary_request ?t))
    with (with_retries Summarize.MAX_RETRIES (Summarize.summary_request t)).
  unfold Summarize.summarize_with_llm.
  destruct (truthy _).
  - destruct (with_retries _ _ _ _ w) as [[e|summary] w1]; [reflexivity|].
    now destruct (progress idx w1) as [[e|u] w2].
  - now destruct (progress idx w) as [[e|u] w2].
Qed.

(** X14: [virgullu.py] summarizes a row exactly as [summarize.py]
    summarizes a sheet that holds the row's sixth part in its sixth
    column: over any rows and any endpoint the two loops return the same
    summaries, or raise the same error, and leave the same requests,
    sleeps and prints behind. *)
Theorem structured_rows_are_summarized_like_sixth_column (values : list cell) :
  forall idx columns summaries w,
    summaries_of (Virgullu.rows_loop idx values columns summaries w)
    = Summarize.rows_loop idx (map sixth_field values) summaries w.
Proof.
  induction values as [|value values IH]; intros idx columns summaries w.
  - reflexivity.
  - cbn [Virgullu.rows_loop Summarize.rows_loop map]. unfold bind.
    pose proof (structure_row_as_summarize_row idx value w) as Hrow.
    destruct (Virgullu.structure_row idx value w) as [[e|[six summary]] w1];
      rewrite <- Hrow; [reflexivity|].
    cbn [fst snd]. apply IH.
Qed.

End SameSummarizer.
